(** * FireSQL: translation of a WHERE expression into Firestore queries

    A shallow embedding of [src/select/where.ts] and a verification of its
    rewriting rules (AND / OR / IN / LIKE / BETWEEN / not-equal), of the
    operator mapper and of the LIKE pattern decomposer.

    Conventions.
    - A thrown [Error] is a value [Throw e] of the [result] type; the
      message of the exception is named by a constructor of [WhereError].
    - An AST node ([{ [k: string]: any }] in the source) is a value of the
      tagged union [Node]; dispatch on [.type] is a [match].
    - [firebase.firestore.Query] is the list of the filters applied so far;
      [query.where(f, op, v)] appends one filter.
    - The helpers imported from [../utils] that where.ts only calls
      ([astValueToNative], [prefixSuccessor]) are the fields of the class
      [Utils]: every theorem holds for every implementation of them. *)

From Stdlib Require Import String Ascii List ZArith Lia Bool Arith Permutation.
From Equations Require Import Equations.
Import ListNotations.
Open Scope string_scope.
Open Scope list_scope.
Set Warnings "-register-all".

(** ** Exceptions *)

Inductive WhereError : Type :=
| UnsupportedLeftSide       (* 'Unsupported WHERE type on left side.' *)
| UnsupportedRightSide      (* 'Unsupported WHERE type on right side.' *)
| LikeOnlyStrings           (* 'Only strings are supported with LIKE in WHERE clause.' *)
| LikeUnsupportedTerm       (* 'Only terms in the form of value% (string begins with value)
                               and value (string equals value) are supported with LIKE ...' *)
| BetweenNeedsTwoValues     (* 'BETWEEN needs 2 values in WHERE clause.' *)
| ContainsUnsupportedValue  (* 'Only strings, numbers, booleans, and null are supported
                               with CONTAINS in WHERE clause.' *)
| UnsupportedWhereClause    (* 'Unsupported WHERE clause' *)
| NotOperatorUnsupported    (* 'NOT WHERE operator unsupported' *)
| UnknownWhereOperator      (* 'Unknown WHERE operator' *)
| ValueError.               (* whatever astValueToNative throws *)

Inductive result (A : Type) : Type :=
| Ok (a : A)
| Throw (e : WhereError).
Arguments Ok {A} a.
Arguments Throw {A} e.

Definition bind {A B : Type} (m : result A) (k : A -> result B) : result B :=
  match m with
  | Ok a => k a
  | Throw e => Throw e
  end.

Notation "x <- m ;; k" := (bind m (fun x => k))
  (at level 61, m at next level, right associativity).

(** ** JavaScript string primitives used by where.ts

    Indices are [Z] because the source computes [strLength - 1] and
    [strLength - 2], which are negative on short strings. *)
Module JS.

(** [str[i]]: [None] is [undefined]. *)
Definition index (str : string) (i : Z) : option ascii :=
  if (i <? 0)%Z then None else String.get (Z.to_nat i) str.

(** [str[i] === c]. *)
Definition index_is (str : string) (i : Z) (c : ascii) : bool :=
  match index str i with
  | Some d => Ascii.eqb d c
  | None => false
  end.

Definition strLength (str : string) : Z := Z.of_nat (String.length str).

(** [str.substr(start, length)] (ECMAScript B.2.3.1). *)
Definition substr (str : string) (start len : Z) : string :=
  let size := strLength str in
  let st := if (start <? 0)%Z then Z.max (size + start) 0 else Z.min start size in
  let ln := Z.min (Z.max len 0) (size - st) in
  String.substring (Z.to_nat st) (Z.to_nat ln) str.

(** [str.substring(start)]: from [start], clamped to [0..size], to the end. *)
Definition substring (str : string) (start : Z) : string :=
  let size := strLength str in
  let st := Z.min (Z.max start 0) size in
  String.substring (Z.to_nat st) (Z.to_nat (size - st)) str.

End JS.

(** ** Data model *)

(** [SQL_ValueString]: [{ type: 'string', value }]. *)
Record SQL_ValueString : Type := { value : string }.

Section Model.

(** The payload of a numeric literal; where.ts never inspects it. *)
Context {number : Type}.

(** The AST of a WHERE clause.  The four [*_value] constructors are the
    [SQL_Value] union; [other_node] is a node of any other type. *)
Inductive Node : Type :=
| binary_expr (operator : string) (left right : Node)
| column_ref (column : string)
| expr_list (values : list Node)
| string_value (v : string)
| number_value (v : number)
| bool_value (v : bool)
| null_value
| other_node.

(** What [astValueToNative] returns and [query.where] accepts:
    [boolean | string | number | null]. *)
Inductive Native : Type :=
| native_string (s : string)
| native_number (n : number)
| native_bool (b : bool)
| native_null.

(** One filter of a query: [(field, operator, value)]. *)
Record Filter : Type := mkFilter
  { field : string; operator_of : string; value_of : Native }.

(** Modelled from the spec: [firebase.firestore.Query] is external; a Query
    is an accumulator of conjoined filter primitives, and applying a filter
    returns a new Query. *)
Definition Query : Type := list Filter.

Definition query_where (query : Query) (f op : string) (v : Native) : Query :=
  query ++ [mkFilter f op v].

End Model.
Arguments Node : clear implicits.
Arguments Native : clear implicits.
Arguments Filter : clear implicits.
Arguments Query : clear implicits.

(** The functions of [../utils] that where.ts calls. *)
Class Utils (number : Type) : Type :=
  { astValueToNative : Node number -> result (Native number);
    prefixSuccessor : string -> string }.

(** Modelled from the spec: [assert] of [../utils] fails fast with the
    message when the condition is false. *)
Definition assert (condition : bool) (message : WhereError) : result unit :=
  if condition then Ok tt else Throw message.

(** ** The LIKE pattern decomposer *)

Record WhereLikeResult : Type := mkWhereLike
  { beginsWith : option SQL_ValueString;
    endsWith : option SQL_ValueString;
    contains : option SQL_ValueString;
    equals : option SQL_ValueString }.

Definition emptyWhereLike : WhereLikeResult := mkWhereLike None None None None.

Definition stringASTWhereValue (str : string) : SQL_ValueString :=
  {| value := str |}.

Definition percent : ascii := "%"%char.

Definition parseWhereLike (str : string) : WhereLikeResult :=
  let result := emptyWhereLike in
  let strLength := JS.strLength str in
  if JS.index_is str 0 percent then
    if JS.index_is str (strLength - 1) percent then
      {| beginsWith := beginsWith result; endsWith := endsWith result;
         contains := Some (stringASTWhereValue (JS.substr str 1 (strLength - 2)));
         equals := equals result |}
    else
      {| beginsWith := beginsWith result;
         endsWith := Some (stringASTWhereValue (JS.substring str 1));
         contains := contains result; equals := equals result |}
  else if JS.index_is str (strLength - 1) percent then
    {| beginsWith := Some (stringASTWhereValue (JS.substr str 0 (strLength - 1)));
       endsWith := endsWith result; contains := contains result;
       equals := equals result |}
  else
    {| beginsWith := beginsWith result; endsWith := endsWith result;
       contains := contains result;
       equals := Some (stringASTWhereValue str) |}.

(** ** The operator mapper *)

Definition whereFilterOp (op : string) : result string :=
  if (op =? "=") || (op =? "IS") then Ok "=="
  else if (op =? "<") || (op =? "<=") || (op =? ">") || (op =? ">=") then Ok op
  else if op =? "CONTAINS" then Ok "array-contains"
  else if op =? "CONTAINS-ANY" then Ok "array-contains-any"
  else if (op =? "NOT") || (op =? "NOT CONTAINS") then Throw NotOperatorUnsupported
  else Throw UnknownWhereOperator.

(** ** The condition applier and the expression translator *)

(** A value together with the equation that it is the result of a test, for
    the branches of [applyCondition] whose recursive calls terminate because
    of the test's outcome. *)
Definition inspect {A : Type} (a : A) : {b : A | a = b} := exist _ a eq_refl.

Section Translator.

Context {number : Type} `{U : Utils number}.

#[local] Abbreviation Node := (Node number).
#[local] Abbreviation Query := (Query number).

Definition as_node (v : SQL_ValueString) : Node := string_value (value v).

(** [astOperator === '!=' || astOperator === '<>']. *)
Definition isNotEqual (astOperator : string) : bool :=
  (astOperator =? "!=") || (astOperator =? "<>").

Definition recursionDepth (astOperator : string) : nat :=
  if isNotEqual astOperator then 1 else 0.

Equations? applyCondition (queries : list Query) (field : string)
    (astOperator : string) (astValue : Node) : result (list Query)
    by wf (recursionDepth astOperator) lt :=
  applyCondition queries field astOperator astValue
    with inspect (isNotEqual astOperator) := {
    | exist _ true Hne =>
        match astValue with
        | bool_value b =>
            applyCondition queries field "=" (bool_value (negb b))
        | _ =>
            lower <- applyCondition queries field "<" astValue ;;
            upper <- applyCondition queries field ">" astValue ;;
            Ok (lower ++ upper)
        end
    | exist _ false Hne =>
        value <- astValueToNative astValue ;;
        operator <- whereFilterOp astOperator ;;
        Ok (map (fun query => query_where query field operator value) queries) }.
Proof.
  all: unfold recursionDepth; rewrite Hne; cbn; lia.
Qed.

(** [values.forEach(v => newQueries.push(...f(v)))], with the array
    [newQueries] threaded through the iterations. *)
Fixpoint forEachPush {A B : Type} (f : A -> result (list B))
    (values : list A) (newQueries : list B) : result (list B) :=
  match values with
  | [] => Ok newQueries
  | valueObj :: rest =>
      pushed <- f valueObj ;;
      forEachPush f rest (newQueries ++ pushed)
  end.

(** [['string', 'number', 'bool', 'null'].includes(node.type)]. *)
Definition isScalarValue (node : Node) : bool :=
  match node with
  | string_value _ | number_value _ | bool_value _ | null_value => true
  | _ => false
  end.

Fixpoint applyWhere (queries : list Query) (astWhere : Node)
    : result (list Query) :=
  match astWhere with
  | binary_expr operator l r =>
      if operator =? "AND" then
        queries <- applyWhere queries l ;;
        applyWhere queries r
      else if operator =? "OR" then
        fromLeft <- applyWhere queries l ;;
        fromRight <- applyWhere queries r ;;
        Ok (fromLeft ++ fromRight)
      else if operator =? "IN" then
        match l with
        | column_ref column =>
            match r with
            | expr_list values =>
                forEachPush (applyCondition queries column "=") values []
            | _ => Throw UnsupportedRightSide
            end
        | _ => Throw UnsupportedLeftSide
        end
      else if operator =? "LIKE" then
        match l with
        | column_ref column =>
            match r with
            | string_value pattern =>
                let whereLike := parseWhereLike pattern in
                match equals whereLike with
                | Some eq =>
                    applyCondition queries column "=" (as_node eq)
                | None =>
                    match beginsWith whereLike with
                    | Some prefix =>
                        let successorStr := prefixSuccessor (value prefix) in
                        queries <- applyCondition queries column ">=" (as_node prefix) ;;
                        applyCondition queries column "<"
                          (as_node (stringASTWhereValue successorStr))
                    | None => Throw LikeUnsupportedTerm
                    end
                end
            | _ => Throw LikeOnlyStrings
            end
        | _ => Throw UnsupportedLeftSide
        end
      else if operator =? "BETWEEN" then
        match l with
        | column_ref column =>
            match r with
            | expr_list [lo; hi] =>
                queries <- applyCondition queries column ">=" lo ;;
                applyCondition queries column "<=" hi
            | _ => Throw BetweenNeedsTwoValues
            end
        | _ => Throw UnsupportedLeftSide
        end
      else if operator =? "CONTAINS" then
        match l with
        | column_ref column =>
            _ <- assert (isScalarValue r) ContainsUnsupportedValue ;;
            applyCondition queries column operator r
        | _ => Throw UnsupportedLeftSide
        end
      else
        match l with
        | column_ref column => applyCondition queries column operator r
        | _ => Throw UnsupportedLeftSide
        end
  | column_ref column =>
      Ok (map (fun query => query_where query column "==" (native_bool true)) queries)
  | _ => Throw UnsupportedWhereClause
  end.

End Translator.

(** ** A reference implementation of the external helpers

    Used to run the translator on concrete queries. *)
Module Sample.

(** Modelled from the spec: the value-literal converter [astValueToNative]
    of [../utils] turns a tagged literal node into the store's native
    scalar and is total over string, number, bool and null.  (On a node
    that is not a literal this instance throws.) *)
Definition toNative (astValue : Node Z) : result (Native Z) :=
  match astValue with
  | string_value s => Ok (native_string s)
  | number_value n => Ok (native_number n)
  | bool_value b => Ok (native_bool b)
  | null_value => Ok native_null
  | _ => Throw ValueError
  end.

Definition isFF (c : ascii) : bool := (nat_of_ascii c =? 255)%nat.

Fixpoint allFF (s : string) : bool :=
  match s with
  | EmptyString => true
  | String c rest => isFF c && allFF rest
  end.

(** Modelled from the spec: the prefix-successor function [prefixSuccessor]
    of [../utils]: increment the final character, cascading on overflow. *)
Fixpoint successor (s : string) : string :=
  match s with
  | EmptyString => EmptyString
  | String c rest =>
      if allFF rest then
        if isFF c then EmptyString
        else String (ascii_of_nat (S (nat_of_ascii c))) EmptyString
      else String c (successor rest)
  end.

#[export] Instance utils : Utils Z :=
  {| astValueToNative := toNative; prefixSuccessor := successor |}.

(** The seed of a translation: one query with no filter. *)
Definition seed : list (Query Z) := [[]].

(** Sample nodes and filters. *)
Definition col_rating : Node Z := column_ref "rating".
Definition col_name : Node Z := column_ref "name".
Definition rating_gt_2 : Node Z := binary_expr ">" col_rating (number_value 2%Z).
Definition name_is_x : Node Z := binary_expr "=" col_name (string_value "x").
Definition flt (f op : string) (v : Native Z) : Filter Z := mkFilter f op v.

End Sample.

(** ** Vocabulary of the specification *)

Section Vocabulary.

Context {number : Type}.

(** Every query of the set refined by the one filter [(f, op, v)]. *)
Definition refineAll (f op : string) (v : Native number)
    (queries : list (Query number)) : list (Query number) :=
  map (fun query => query_where query f op v) queries.

(** The query set denoted by a list of alternatives, each a list of
    filters to add: alternative by alternative, every incoming query
    extended with that alternative's filters. *)
Definition expand (alts : list (list (Filter number)))
    (queries : list (Query number)) : list (Query number) :=
  flat_map (fun fs => map (fun query => query ++ fs) queries) alts.

(** The alternatives of a sequence of two steps: every alternative of the
    first followed by every alternative of the second. *)
Definition seqAlts (alts1 alts2 : list (list (Filter number)))
    : list (list (Filter number)) :=
  flat_map (fun fs2 => map (fun fs1 => fs1 ++ fs2) alts1) alts2.

(** A translation step that does not look at the incoming queries: it
    either throws the same error on every query set, or extends every
    query set by the same alternatives. *)
Definition Uniform (F : list (Query number) -> result (list (Query number)))
    : Prop :=
  (exists e, forall queries, F queries = Throw e) \/
  (exists alts, forall queries, F queries = Ok (expand alts queries)).

End Vocabulary.

(** The concatenation of the results of a list of steps, in list order;
    the first error aborts. *)
Fixpoint concatResults {B : Type} (rs : list (result (list B)))
    : result (list B) :=
  match rs with
  | [] => Ok []
  | r :: rest =>
      here <- r ;;
      there <- concatResults rest ;;
      Ok (here ++ there)
  end.

(** The number of fields a decomposition populates. *)
Definition populated (r : WhereLikeResult) : nat :=
  let count (o : option SQL_ValueString) :=
    match o with Some _ => 1 | None => 0 end in
  count (beginsWith r) + count (endsWith r) + count (contains r) + count (equals r).

(** The four shapes of a decomposition: one field holds the text. *)
Definition likeContains (text : string) : WhereLikeResult :=
  mkWhereLike None None (Some (stringASTWhereValue text)) None.

Definition likeEndsWith (text : string) : WhereLikeResult :=
  mkWhereLike None (Some (stringASTWhereValue text)) None None.

Definition likeBeginsWith (text : string) : WhereLikeResult :=
  mkWhereLike (Some (stringASTWhereValue text)) None None None.

Definition likeEquals (text : string) : WhereLikeResult :=
  mkWhereLike None None None (Some (stringASTWhereValue text)).

(** The first character of the pattern is [%]. *)
Definition startsWithPercent (str : string) : Prop :=
  exists rest, str = String percent rest.

(** The last character of the pattern is [%]. *)
Definition endsWithPercent (str : string) : Prop :=
  exists init, str = (init ++ String percent EmptyString)%string.

(** The tokens the operator mapper maps to a filter operator. *)
Definition mappedTokens : list string :=
  ["="; "IS"; "<"; "<="; ">"; ">="; "CONTAINS"; "CONTAINS-ANY"].

Definition isColumnRef {number : Type} (node : Node number) : bool :=
  match node with
  | column_ref _ => true
  | _ => false
  end.

Definition isExprList {number : Type} (node : Node number) : bool :=
  match node with
  | expr_list _ => true
  | _ => false
  end.

Definition isBool {number : Type} (node : Node number) : bool :=
  match node with
  | bool_value _ => true
  | _ => false
  end.

(** [expr_list] of exactly two values. *)
Definition isPair {number : Type} (node : Node number) : bool :=
  match node with
  | expr_list [_; _] => true
  | _ => false
  end.

(** ** Measures and invariants of a translation *)

(** The filter operators of the store, the range of the operator mapper. *)
Definition storeOperators : list string :=
  ["=="; "<"; "<="; ">"; ">="; "array-contains"; "array-contains-any"].

(** The operators [applyWhere] rewrites itself, in the order it tests them;
    every other operator goes to [applyCondition] unchanged. *)
Definition rewrittenOperators : list string :=
  ["AND"; "OR"; "IN"; "LIKE"; "BETWEEN"; "CONTAINS"].

Section Measures.

Context {number : Type}.

(** The number of queries a translation returns for each incoming query. *)
Fixpoint fanout (astWhere : Node number) : nat :=
  match astWhere with
  | binary_expr operator l r =>
      if operator =? "AND" then fanout l * fanout r
      else if operator =? "OR" then fanout l + fanout r
      else if operator =? "IN" then
        match r with
        | expr_list values => length values
        | _ => 0
        end
      else if isNotEqual operator then (if isBool r then 1 else 2)
      else 1
  | _ => 1
  end.

(** The columns an expression tests: the bare columns and the left operands
    of its comparisons. *)
Fixpoint columnsOf (astWhere : Node number) : list string :=
  match astWhere with
  | binary_expr operator l r =>
      if (operator =? "AND") || (operator =? "OR")
      then columnsOf l ++ columnsOf r
      else match l with
           | column_ref column => [column]
           | _ => []
           end
  | column_ref column => [column]
  | _ => []
  end.

(** Every query of [after] is a query of [before] followed by filters that
    all satisfy [P]. *)
Definition Extends (P : Filter number -> Prop)
    (before after : list (Query number)) : Prop :=
  Forall (fun r => exists q fs, In q before /\ r = q ++ fs /\ Forall P fs) after.

(** A filter on one of the given columns with an operator of the store. *)
Definition nativeOn (columns : list string) (x : Filter number) : Prop :=
  In (field x) columns /\ In (operator_of x) storeOperators.

End Measures.

(** The pattern a decomposition stands for. *)
Definition renderLike (r : WhereLikeResult) : string :=
  match contains r, endsWith r, beginsWith r, equals r with
  | Some text, _, _, _ =>
      String percent (value text ++ String percent EmptyString)%string
  | None, Some text, _, _ => String percent (value text)
  | None, None, Some text, _ => (value text ++ String percent EmptyString)%string
  | None, None, None, Some text => value text
  | None, None, None, None => EmptyString
  end.

(** * Verification *)

Section Correctness.

Context {number : Type} `{U : Utils number}.

#[local] Abbreviation Node := (Node number).
#[local] Abbreviation Query := (Query number).
#[local] Abbreviation Filter := (Filter number).

(** ** The result monad *)

Lemma bind_Ok {A B : Type} (m : result A) (k : A -> result B) (b : B) :
  bind m k = Ok b -> exists a, m = Ok a /\ k a = Ok b.
Proof.
  destruct m as [a | e]; cbn; intros H; [eauto | discriminate].
Qed.

(** ** The recursion equation of [applyCondition], as in the source *)

Lemma applyCondition_rec (queries : list Query) (f op : string) (v : Node) :
  applyCondition queries f op v =
  if isNotEqual op then
    match v with
    | bool_value b => applyCondition queries f "=" (bool_value (negb b))
    | _ =>
        lower <- applyCondition queries f "<" v ;;
        upper <- applyCondition queries f ">" v ;;
        Ok (lower ++ upper)
    end
  else
    value <- astValueToNative v ;;
    operator <- whereFilterOp op ;;
    Ok (refineAll f operator value queries).
Proof.
  rewrite applyCondition_equation_1.
  assert (G : forall b (e : isNotEqual op = b),
    applyCondition_unfold_clause_1 queries f op (exist _ b e) v =
    if b then
      match v with
      | bool_value b => applyCondition queries f "=" (bool_value (negb b))
      | _ =>
          lower <- applyCondition queries f "<" v ;;
          upper <- applyCondition queries f ">" v ;;
          Ok (lower ++ upper)
      end
    else
      value <- astValueToNative v ;;
      operator <- whereFilterOp op ;;
      Ok (refineAll f operator value queries)).
  { intros [] e; simp applyCondition; reflexivity. }
  apply G.
Qed.

(** A condition whose operator is not a not-equal is one primitive filter
    on every query. *)
Lemma applyCondition_plain (queries : list Query) (f op : string) (v : Node) :
  isNotEqual op = false ->
  applyCondition queries f op v =
  (value <- astValueToNative v ;;
   operator <- whereFilterOp op ;;
   Ok (refineAll f operator value queries)).
Proof.
  intros H. rewrite applyCondition_rec, H. reflexivity.
Qed.

Lemma applyCondition_mapped (queries : list Query) (f op fop : string)
    (v : Node) (n : Native number) :
  isNotEqual op = false -> whereFilterOp op = Ok fop ->
  astValueToNative v = Ok n ->
  applyCondition queries f op v = Ok (refineAll f fop n queries).
Proof.
  intros Hne Hop Hv. rewrite applyCondition_plain by exact Hne.
  rewrite Hv, Hop. reflexivity.
Qed.

(** ** Algebra of [expand] *)

Lemma expand_nil (queries : list Query) : expand [] queries = [].
Proof. reflexivity. Qed.

Lemma expand_app (alts1 alts2 : list (list Filter)) (queries : list Query) :
  expand (alts1 ++ alts2) queries = expand alts1 queries ++ expand alts2 queries.
Proof. unfold expand. apply flat_map_app. Qed.

Lemma expand_one (fs : list Filter) (queries : list Query) :
  expand [fs] queries = map (fun query => query ++ fs) queries.
Proof. unfold expand. cbn. apply app_nil_r. Qed.

Lemma expand_seed (alts : list (list Filter)) (q : Query) :
  expand alts [q] = map (fun fs => q ++ fs) alts.
Proof.
  unfold expand. induction alts as [| fs alts IH]; cbn in *; [reflexivity |].
  now rewrite IH.
Qed.

Lemma length_expand (alts : list (list Filter)) (queries : list Query) :
  length (expand alts queries) = length alts * length queries.
Proof.
  unfold expand. apply flat_map_constant_length.
  intros fs _. apply length_map.
Qed.

Lemma refineAll_expand (f op : string) (v : Native number) (queries : list Query) :
  refineAll f op v queries = expand [[mkFilter f op v]] queries.
Proof. now rewrite expand_one. Qed.

Lemma map_expand (fs : list Filter) (alts : list (list Filter))
    (queries : list Query) :
  map (fun query => query ++ fs) (expand alts queries) =
  expand (map (fun fs1 => fs1 ++ fs) alts) queries.
Proof.
  unfold expand. induction alts as [| fs1 alts IH]; cbn; [reflexivity |].
  rewrite map_app, IH, map_map. f_equal.
  apply map_ext. intros query. symmetry. apply app_assoc.
Qed.

Lemma expand_expand (alts1 alts2 : list (list Filter)) (queries : list Query) :
  expand alts2 (expand alts1 queries) = expand (seqAlts alts1 alts2) queries.
Proof.
  unfold seqAlts. induction alts2 as [| fs2 alts2 IH]; [reflexivity |].
  cbn [flat_map]. rewrite expand_app, <- IH, <- map_expand. reflexivity.
Qed.

Lemma length_seqAlts (alts1 alts2 : list (list Filter)) :
  length (seqAlts alts1 alts2) = length alts2 * length alts1.
Proof.
  unfold seqAlts. apply flat_map_constant_length.
  intros fs _. apply length_map.
Qed.

(** ** Uniform steps *)

Lemma Uniform_ext (F G : list Query -> result (list Query)) :
  (forall queries, F queries = G queries) -> Uniform F -> Uniform G.
Proof.
  intros E [[e H] | [alts H]]; [left; exists e | right; exists alts];
    intros queries; rewrite <- E; apply H.
Qed.

Lemma Uniform_throw (e : WhereError) :
  Uniform (fun _ : list Query => Throw e).
Proof. left. exists e. reflexivity. Qed.

Lemma Uniform_refine (f op : string) (v : Native number) :
  Uniform (fun queries : list Query => Ok (refineAll f op v queries)).
Proof.
  right. exists [[mkFilter f op v]]. intros queries.
  now rewrite refineAll_expand.
Qed.

(** A step and then another, on the result of the first. *)
Lemma Uniform_seq (F G : list Query -> result (list Query)) :
  Uniform F -> Uniform G ->
  Uniform (fun queries => refined <- F queries ;; G refined).
Proof.
  intros [[e HF] | [alts1 HF]] HG.
  - left. exists e. intros queries. now rewrite HF.
  - destruct HG as [[e HG] | [alts2 HG]].
    + left. exists e. intros queries. rewrite HF. cbn. apply HG.
    + right. exists (seqAlts alts1 alts2). intros queries.
      rewrite HF. cbn. rewrite HG. now rewrite expand_expand.
Qed.

(** Two steps on the same incoming set, their results concatenated. *)
Lemma Uniform_fanout (F G : list Query -> result (list Query)) :
  Uniform F -> Uniform G ->
  Uniform (fun queries =>
    fromLeft <- F queries ;; fromRight <- G queries ;;
    Ok (fromLeft ++ fromRight)).
Proof.
  intros [[e HF] | [alts1 HF]] HG.
  - left. exists e. intros queries. now rewrite HF.
  - destruct HG as [[e HG] | [alts2 HG]].
    + left. exists e. intros queries. rewrite HF, HG. reflexivity.
    + right. exists (alts1 ++ alts2). intros queries.
      rewrite HF, HG. cbn. now rewrite expand_app.
Qed.

Lemma applyCondition_plain_Uniform (f op : string) (v : Node) :
  isNotEqual op = false ->
  Uniform (fun queries => applyCondition queries f op v).
Proof.
  intros Hne.
  apply Uniform_ext with (F := fun queries =>
    value <- astValueToNative v ;;
    operator <- whereFilterOp op ;;
    Ok (refineAll f operator value queries)).
  { intros queries. symmetry. now apply applyCondition_plain. }
  destruct (astValueToNative v) as [n | e]; cbn; [| apply Uniform_throw].
  destruct (whereFilterOp op) as [fop | e]; cbn; [| apply Uniform_throw].
  apply Uniform_refine.
Qed.

Lemma applyCondition_Uniform (f op : string) (v : Node) :
  Uniform (fun queries => applyCondition queries f op v).
Proof.
  destruct (isNotEqual op) eqn:Hne.
  - assert (P : forall o, isNotEqual o = false ->
      Uniform (fun queries => applyCondition queries f o v))
      by (intros; now apply applyCondition_plain_Uniform).
    pose proof (Uniform_fanout _ _ (P "<" eq_refl) (P ">" eq_refl)) as Split.
    destruct v; try (eapply Uniform_ext; [| exact Split];
      intros queries; cbn beta; now rewrite (applyCondition_rec queries f op), Hne).
    eapply Uniform_ext;
      [| exact (applyCondition_plain_Uniform f "=" (bool_value (negb v)) eq_refl)].
    intros queries. cbn beta. now rewrite (applyCondition_rec queries f op), Hne.
  - now apply applyCondition_plain_Uniform.
Qed.

(** The loop of IN appends to what was pushed before. *)
Lemma forEachPush_acc {A B : Type} (f : A -> result (list B)) (values : list A)
    (acc : list B) :
  forEachPush f values acc =
  (pushed <- forEachPush f values [] ;; Ok (acc ++ pushed)).
Proof.
  revert acc. induction values as [| v values IH]; intros acc; cbn.
  - now rewrite app_nil_r.
  - destruct (f v) as [here | e]; cbn; [| reflexivity].
    rewrite (IH (acc ++ here)), (IH here).
    destruct (forEachPush f values []) as [there | e]; cbn; [| reflexivity].
    now rewrite app_assoc.
Qed.

Lemma forEachPush_concat {A B : Type} (f : A -> result (list B)) (values : list A) :
  forEachPush f values [] = concatResults (map f values).
Proof.
  induction values as [| v values IH]; cbn; [reflexivity |].
  destruct (f v) as [here | e]; cbn; [| reflexivity].
  now rewrite forEachPush_acc, IH.
Qed.

Lemma concatResults_Uniform (steps : list (list Query -> result (list Query))) :
  Forall Uniform steps ->
  Uniform (fun queries => concatResults (map (fun F => F queries) steps)).
Proof.
  induction 1 as [| F steps HF _ IH]; cbn.
  - right. exists []. reflexivity.
  - exact (Uniform_fanout _ _ HF IH).
Qed.

Lemma applyWhere_Uniform (astWhere : Node) :
  Uniform (fun queries => applyWhere queries astWhere).
Proof.
  induction astWhere as [operator l IHl r IHr | column | values | | | | |];
    try apply Uniform_throw.
  - cbn [applyWhere].
    destruct (operator =? "AND"); [exact (Uniform_seq _ _ IHl IHr) |].
    destruct (operator =? "OR"); [exact (Uniform_fanout _ _ IHl IHr) |].
    destruct (operator =? "IN").
    { destruct l; try apply Uniform_throw.
      destruct r; try apply Uniform_throw.
      eapply Uniform_ext.
      { intros queries. symmetry. rewrite forEachPush_concat.
        rewrite <- (map_map (fun v queries => applyCondition queries column "=" v)
                            (fun F => F queries)).
        reflexivity. }
      apply concatResults_Uniform. apply Forall_map, Forall_forall.
      intros v _. apply applyCondition_Uniform. }
    destruct (operator =? "LIKE").
    { destruct l; try apply Uniform_throw.
      destruct r; try apply Uniform_throw.
      cbn zeta. destruct (equals (parseWhereLike v)); [apply applyCondition_Uniform |].
      destruct (beginsWith (parseWhereLike v)); [| apply Uniform_throw].
      apply Uniform_seq; apply applyCondition_Uniform. }
    destruct (operator =? "BETWEEN").
    { destruct l; try apply Uniform_throw.
      destruct r as [| | [| lo [| hi [|]]] | | | | |]; try apply Uniform_throw.
      apply Uniform_seq; apply applyCondition_Uniform. }
    destruct (operator =? "CONTAINS").
    { destruct l; try apply Uniform_throw.
      destruct (isScalarValue r); cbn; [apply applyCondition_Uniform | apply Uniform_throw]. }
    destruct l; try apply Uniform_throw. apply applyCondition_Uniform.
  - right. exists [[mkFilter column "==" (native_bool true)]].
    intros queries. cbn [applyWhere]. now rewrite expand_one.
Qed.

(** A translation that succeeds on one query set succeeds on every query
    set, with the same alternatives. *)
Lemma applyWhere_alts (astWhere : Node) (queries result : list Query) :
  applyWhere queries astWhere = Ok result ->
  exists alts, forall queries', applyWhere queries' astWhere = Ok (expand alts queries').
Proof.
  intros H. destruct (applyWhere_Uniform astWhere) as [[e He] | [alts Ha]].
  - rewrite He in H. discriminate.
  - exists alts. exact Ha.
Qed.

Lemma length_one_map {A B : Type} (f : A -> B) (l : list A) (y : B) :
  map f l = [y] -> exists x, l = [x] /\ f x = y.
Proof.
  destruct l as [| x [| x' l]]; cbn; intros H; inversion H; subst; eauto.
Qed.

(** ** AND, OR *)

(** C1: for every query set Q and expressions L and R, translating
    BinaryExpr(AND, L, R) against Q is translating R against the result of
    translating L against Q.  It is no cross product of the L-results and
    the R-results: when all three translations succeed, the size of the
    result times the size of Q is the product of the sizes of the
    translations of L and of R against Q. *)
Theorem applyWhere_AND (Q : list Query) (L R : Node) :
  applyWhere Q (binary_expr "AND" L R) =
    (narrowed <- applyWhere Q L ;; applyWhere narrowed R) /\
  (forall QL QR QLR,
     applyWhere Q L = Ok QL -> applyWhere Q R = Ok QR ->
     applyWhere Q (binary_expr "AND" L R) = Ok QLR ->
     length QLR * length Q = length QL * length QR).
Proof.
  split; [reflexivity |].
  intros QL QR QLR HL HR. cbn [applyWhere String.eqb Ascii.eqb Bool.eqb].
  rewrite HL. cbn [bind]. intros HLR.
  destruct (applyWhere_alts _ _ _ HL) as [altsL EL].
  destruct (applyWhere_alts _ _ _ HR) as [altsR ER].
  rewrite EL in HL. rewrite ER in HR. rewrite ER in HLR.
  injection HL as <-. injection HR as <-. injection HLR as <-.
  rewrite !length_expand. lia.
Qed.

(** C2: for every query set Q and expressions L and R whose translations
    against Q both succeed, translating BinaryExpr(OR, L, R) against Q
    returns the translation of L against Q followed by the translation of
    R against Q; its length is the sum of the two lengths, and nothing is
    deduplicated (L OR L yields every query of L twice). *)
Theorem applyWhere_OR (Q : list Query) (L R : Node) (QL QR : list Query) :
  applyWhere Q L = Ok QL -> applyWhere Q R = Ok QR ->
  applyWhere Q (binary_expr "OR" L R) = Ok (QL ++ QR) /\
  length (QL ++ QR) = length QL + length QR /\
  applyWhere Q (binary_expr "OR" L L) = Ok (QL ++ QL).
Proof.
  intros HL HR. cbn [applyWhere String.eqb Ascii.eqb Bool.eqb].
  rewrite HL, HR. cbn [bind]. repeat split. apply length_app.
Qed.

(** C3: for every pair of expressions A and B such that translating
    A AND B against a single-query seed succeeds, the result is a singleton
    if and only if translating A alone and translating B alone against the
    seed each yields a singleton; in that case the sole resulting query
    carries the seed's filters, then the filters A added, then the filters
    B added, and a filter is in it exactly when it is in A's query or in
    B's query. *)
Theorem applyWhere_AND_singleton (q : Query) (A B : Node) (result : list Query) :
  applyWhere [q] (binary_expr "AND" A B) = Ok result ->
  (length result = 1 <->
   exists qa qb, applyWhere [q] A = Ok [qa] /\ applyWhere [q] B = Ok [qb]) /\
  (forall qa qb,
     applyWhere [q] A = Ok [qa] -> applyWhere [q] B = Ok [qb] ->
     exists fa fb,
       qa = q ++ fa /\ qb = q ++ fb /\ result = [q ++ fa ++ fb] /\
       forall x, In x (q ++ fa ++ fb) <-> In x qa \/ In x qb).
Proof.
  cbn [applyWhere String.eqb Ascii.eqb Bool.eqb]. intros H.
  apply bind_Ok in H. destruct H as [QA [HA HB]].
  destruct (applyWhere_alts _ _ _ HA) as [altsA EA].
  destruct (applyWhere_alts _ _ _ HB) as [altsB EB].
  rewrite EA in HA. injection HA as <-.
  rewrite EB, expand_expand in HB. injection HB as <-.
  rewrite !EA, !EB, !expand_seed. split.
  - rewrite length_map, length_seqAlts. split.
    + intros Hlen.
      apply Nat.eq_mul_1 in Hlen. destruct Hlen as [LB LA].
      destruct altsA as [| fa [| ? ?]]; try discriminate.
      destruct altsB as [| fb [| ? ?]]; try discriminate.
      exists (q ++ fa), (q ++ fb). split; reflexivity.
    + intros (qa & qb & HA & HB).
      injection HA as HA. injection HB as HB.
      apply length_one_map in HA. destruct HA as (fa & -> & _).
      apply length_one_map in HB. destruct HB as (fb & -> & _).
      reflexivity.
  - intros qa qb HA HB.
    injection HA as HA. injection HB as HB.
    apply length_one_map in HA. destruct HA as (fa & -> & <-).
    apply length_one_map in HB. destruct HB as (fb & -> & <-).
    exists fa, fb. repeat split.
    + rewrite !in_app_iff. tauto.
    + rewrite !in_app_iff. tauto.
Qed.

(** ** Not-equal *)

Lemma isNotEqual_tokens (op : string) :
  op = "!=" \/ op = "<>" -> isNotEqual op = true.
Proof. intros [-> | ->]; reflexivity. Qed.

(** C5: for every query set Q, field f, value v and operator != or <>:
    if v is a boolean literal, applying the condition is applying
    (f, =, not v), one equality filter on the negated literal per query,
    so a single seed yields one query; if v is not a boolean literal, it is
    the result of applying (f, <, v) followed by the result of applying
    (f, >, v), both to Q, so a single seed yields two queries, with the
    filters f < v and f > v. *)
Theorem applyCondition_notEqual (Q : list Query) (f op : string) (v : Node) :
  op = "!=" \/ op = "<>" ->
  (forall b, v = bool_value b ->
     applyCondition Q f op v = applyCondition Q f "=" (bool_value (negb b)) /\
     forall n, astValueToNative (bool_value (negb b)) = Ok n ->
       applyCondition Q f op v = Ok (refineAll f "==" n Q) /\
       forall q, applyCondition [q] f op v = Ok [q ++ [mkFilter f "==" n]]) /\
  (isBool v = false ->
     applyCondition Q f op v =
       (lower <- applyCondition Q f "<" v ;;
        upper <- applyCondition Q f ">" v ;;
        Ok (lower ++ upper)) /\
     forall n, astValueToNative v = Ok n ->
       applyCondition Q f op v = Ok (refineAll f "<" n Q ++ refineAll f ">" n Q) /\
       forall q, applyCondition [q] f op v =
                 Ok [q ++ [mkFilter f "<" n]; q ++ [mkFilter f ">" n]]).
Proof.
  intros Hop. apply isNotEqual_tokens in Hop. split.
  - intros b ->.
    assert (E : forall Q', applyCondition Q' f op (bool_value b) =
                           applyCondition Q' f "=" (bool_value (negb b))).
    { intros Q'. now rewrite (applyCondition_rec Q' f op), Hop. }
    split; [apply E |]. intros n Hn. split; [| intros q]; rewrite E;
      now rewrite (applyCondition_mapped _ f "=" "==" _ n).
  - intros Hv.
    assert (E : forall Q', applyCondition Q' f op v =
              (lower <- applyCondition Q' f "<" v ;;
               upper <- applyCondition Q' f ">" v ;;
               Ok (lower ++ upper))).
    { intros Q'. rewrite (applyCondition_rec Q' f op), Hop.
      destruct v; try reflexivity. discriminate. }
    split; [apply E |]. intros n Hn. split; [| intros q]; rewrite E;
      rewrite (applyCondition_mapped _ f "<" "<" _ n),
              (applyCondition_mapped _ f ">" ">" _ n); auto.
Qed.

(** ** IN *)

Lemma concatResults_Ok {A B : Type} (f : A -> result (list B)) (g : A -> list B)
    (values : list A) :
  Forall (fun v => f v = Ok (g v)) values ->
  concatResults (map f values) = Ok (flat_map g values).
Proof.
  induction 1 as [| v values Hv _ IH]; cbn; [reflexivity |].
  now rewrite Hv, IH.
Qed.

Lemma applyCondition_equal_all (Q : list Query) (col : string)
    (values : list Node) (natives : list (Native number)) :
  Forall2 (fun v n => astValueToNative v = Ok n) values natives ->
  concatResults (map (applyCondition Q col "=") values) =
  Ok (flat_map (fun n => refineAll col "==" n Q) natives).
Proof.
  induction 1 as [| v n values natives Hv _ IH]; cbn; [reflexivity |].
  rewrite (applyCondition_mapped _ col "=" "==" _ n), IH; auto.
Qed.

(** C4: for every query set Q and every IN node whose left operand is a
    column reference col and whose right operand is an expression list of
    values v1..vn, translation returns the concatenation, over the values
    in list order, of applying the equality condition (col, =, vi) to the
    incoming Q; against a single-query seed this yields exactly n queries,
    the i-th with the filter col = vi added.  If the left operand is not a
    column reference, or the right operand is not an expression list,
    translation fails with a shape error. *)
Theorem applyWhere_IN (Q : list Query) (l r : Node) :
  (forall col values, l = column_ref col -> r = expr_list values ->
     applyWhere Q (binary_expr "IN" l r) =
       concatResults (map (applyCondition Q col "=") values) /\
     forall natives,
       Forall2 (fun v n => astValueToNative v = Ok n) values natives ->
       applyWhere Q (binary_expr "IN" l r) =
         Ok (flat_map (fun n => refineAll col "==" n Q) natives) /\
       forall q,
         applyWhere [q] (binary_expr "IN" l r) =
           Ok (map (fun n => q ++ [mkFilter col "==" n]) natives) /\
         length (map (fun n => q ++ [mkFilter col "==" n]) natives) =
           length values) /\
  (isColumnRef l = false ->
     applyWhere Q (binary_expr "IN" l r) = Throw UnsupportedLeftSide) /\
  (isColumnRef l = true -> isExprList r = false ->
     applyWhere Q (binary_expr "IN" l r) = Throw UnsupportedRightSide).
Proof.
  split; [| split].
  - intros col values -> ->.
    assert (E : forall Q', applyWhere Q' (binary_expr "IN" (column_ref col) (expr_list values)) =
              concatResults (map (applyCondition Q' col "=") values)).
    { intros Q'. cbn [applyWhere String.eqb Ascii.eqb Bool.eqb].
      apply forEachPush_concat. }
    split; [apply E |]. intros natives Hn. split.
    + rewrite E. now apply applyCondition_equal_all.
    + intros q. split.
      * rewrite E, (applyCondition_equal_all _ _ _ _ Hn). f_equal.
      * rewrite length_map. symmetry. eapply Forall2_length. exact Hn.
  - intros Hl. cbn [applyWhere String.eqb Ascii.eqb Bool.eqb].
    destruct l; try reflexivity. discriminate.
  - intros Hl Hr. cbn [applyWhere String.eqb Ascii.eqb Bool.eqb].
    destruct l; try discriminate. destruct r; try reflexivity. discriminate.
Qed.

(** ** BETWEEN *)

Lemma applyCondition_range (Q : list Query) (col op1 op2 : string)
    (v1 v2 : Node) (n1 n2 : Native number) :
  isNotEqual op1 = false -> isNotEqual op2 = false ->
  whereFilterOp op1 = Ok op1 -> whereFilterOp op2 = Ok op2 ->
  astValueToNative v1 = Ok n1 -> astValueToNative v2 = Ok n2 ->
  (bounded <- applyCondition Q col op1 v1 ;; applyCondition bounded col op2 v2) =
  Ok (refineAll col op2 n2 (refineAll col op1 n1 Q)).
Proof.
  intros N1 N2 O1 O2 H1 H2.
  rewrite (applyCondition_mapped _ col op1 op1 _ n1) by assumption. cbn [bind].
  now apply applyCondition_mapped.
Qed.

Lemma refineAll_twice_seed (q : Query) (col op1 op2 : string) (n1 n2 : Native number) :
  refineAll col op2 n2 (refineAll col op1 n1 [q]) =
  [q ++ [mkFilter col op1 n1; mkFilter col op2 n2]].
Proof. cbn. unfold query_where. now rewrite <- app_assoc. Qed.

(** C9: for every query set Q and every BETWEEN node whose left operand is
    a column reference col and whose right operand is an expression list
    of exactly two values lo and hi, translation applies (col, >=, lo) and
    then (col, <=, hi) to the result, so a single seed yields one query
    with both filters; a right operand that is not an expression list of
    exactly two values makes translation fail. *)
Theorem applyWhere_BETWEEN (Q : list Query) (l r : Node) :
  (forall col lo hi, l = column_ref col -> r = expr_list [lo; hi] ->
     applyWhere Q (binary_expr "BETWEEN" l r) =
       (bounded <- applyCondition Q col ">=" lo ;;
        applyCondition bounded col "<=" hi) /\
     forall nlo nhi,
       astValueToNative lo = Ok nlo -> astValueToNative hi = Ok nhi ->
       applyWhere Q (binary_expr "BETWEEN" l r) =
         Ok (refineAll col "<=" nhi (refineAll col ">=" nlo Q)) /\
       forall q,
         applyWhere [q] (binary_expr "BETWEEN" l r) =
           Ok [q ++ [mkFilter col ">=" nlo; mkFilter col "<=" nhi]]) /\
  (isPair r = false ->
     (exists e, applyWhere Q (binary_expr "BETWEEN" l r) = Throw e) /\
     (isColumnRef l = true ->
      applyWhere Q (binary_expr "BETWEEN" l r) = Throw BetweenNeedsTwoValues)).
Proof.
  split.
  - intros col lo hi -> ->. split; [reflexivity |].
    intros nlo nhi Hlo Hhi. split; [| intros q; rewrite <- refineAll_twice_seed];
      cbn [applyWhere String.eqb Ascii.eqb Bool.eqb];
      now apply applyCondition_range.
  - intros Hr.
    assert (E : isColumnRef l = true ->
      applyWhere Q (binary_expr "BETWEEN" l r) = Throw BetweenNeedsTwoValues).
    { intros Hl. cbn [applyWhere String.eqb Ascii.eqb Bool.eqb].
      destruct l; try discriminate.
      destruct r as [| | [| lo [| hi [|]]] | | | | |]; try reflexivity.
      discriminate. }
    split; [| exact E].
    destruct (isColumnRef l) eqn:Hl; [eexists; now apply E |].
    exists UnsupportedLeftSide. cbn [applyWhere String.eqb Ascii.eqb Bool.eqb].
    destruct l; try reflexivity. discriminate.
Qed.

(** ** Strings *)

Lemma length_append (s1 s2 : string) :
  String.length (s1 ++ s2)%string = String.length s1 + String.length s2.
Proof. induction s1 as [| c s1 IH]; cbn; [reflexivity | now rewrite IH]. Qed.

Lemma substring_whole (s : string) : String.substring 0 (String.length s) s = s.
Proof. induction s as [| c s IH]; cbn; [reflexivity | now rewrite IH]. Qed.

Lemma substring_init (s1 s2 : string) :
  String.substring 0 (String.length s1) (s1 ++ s2)%string = s1.
Proof.
  induction s1 as [| c s1 IH]; cbn; [now destruct s2 | now rewrite IH].
Qed.

Lemma get_snoc (init : string) (c : ascii) :
  String.get (String.length init) (init ++ String c EmptyString)%string = Some c.
Proof. induction init as [| d init IH]; cbn; [reflexivity | exact IH]. Qed.

(** A string is empty or has a last character. *)
Lemma string_snoc (s : string) :
  s = EmptyString \/ exists init c, s = (init ++ String c EmptyString)%string.
Proof.
  induction s as [| d s [-> | (init & c & ->)]]; [now left | |]; right.
  - exists EmptyString, d. reflexivity.
  - exists (String d init), c. reflexivity.
Qed.

Lemma strLength_snoc (init : string) (c : ascii) :
  (JS.strLength (init ++ String c EmptyString)%string - 1)%Z =
  Z.of_nat (String.length init).
Proof. unfold JS.strLength. rewrite length_append. cbn. lia. Qed.

Lemma index_first (str : string) (c : ascii) :
  JS.index_is str 0 c = true <-> exists rest, str = String c rest.
Proof.
  unfold JS.index_is, JS.index. cbn. destruct str as [| d rest]; cbn.
  - split; [discriminate | intros [rest H]; discriminate].
  - rewrite Ascii.eqb_eq. split.
    + intros ->. now exists rest.
    + intros [rest' H]. now injection H.
Qed.

Lemma index_last (str : string) (c : ascii) :
  JS.index_is str (JS.strLength str - 1) c = true <->
  exists init, str = (init ++ String c EmptyString)%string.
Proof.
  destruct (string_snoc str) as [-> | (init & d & ->)].
  - cbn. split; [discriminate |].
    intros [[| ? ?] H]; discriminate.
  - unfold JS.index_is, JS.index. rewrite strLength_snoc.
    destruct (Z.ltb_spec (Z.of_nat (String.length init)) 0) as [Hneg | _]; [lia |].
    rewrite Nat2Z.id, get_snoc, Ascii.eqb_eq. split.
    + intros ->. now exists init.
    + intros [init' H].
      assert (L : String.length init = String.length init').
      { apply (f_equal String.length) in H. rewrite !length_append in H.
        cbn in H. lia. }
      pose proof (get_snoc init d) as G. rewrite H, L, get_snoc in G.
      now injection G.
Qed.

Lemma substr_init (init : string) (c : ascii) :
  let str := (init ++ String c EmptyString)%string in
  JS.substr str 0 (JS.strLength str - 1) = init.
Proof.
  cbn zeta. unfold JS.substr. rewrite strLength_snoc.
  unfold JS.strLength. rewrite length_append. cbn [String.length Z.ltb Z.compare].
  replace (Z.to_nat (Z.min 0 _)) with 0 by lia.
  replace (Z.to_nat (Z.min _ _)) with (String.length init) by lia.
  apply substring_init.
Qed.

Lemma substring_rest (c : ascii) (rest : string) :
  JS.substring (String c rest) 1 = rest.
Proof.
  unfold JS.substring, JS.strLength. cbn [String.length].
  replace (Z.to_nat (Z.min _ _)) with 1 by lia.
  replace (Z.to_nat (_ - _)) with (String.length rest) by lia.
  cbn. apply substring_whole.
Qed.

Lemma substr_middle (c d : ascii) (mid : string) :
  let str := String c (mid ++ String d EmptyString)%string in
  JS.substr str 1 (JS.strLength str - 2) = mid.
Proof.
  cbn zeta. unfold JS.substr, JS.strLength. cbn [String.length Z.ltb Z.compare].
  rewrite length_append. cbn [String.length].
  replace (Z.to_nat (Z.min 1 _)) with 1 by lia.
  replace (Z.to_nat (Z.min _ _)) with (String.length mid) by lia.
  cbn. apply substring_init.
Qed.

(** ** The LIKE decomposer *)

Lemma startsWithPercent_index (str : string) :
  JS.index_is str 0 percent = true <-> startsWithPercent str.
Proof. apply index_first. Qed.

Lemma endsWithPercent_index (str : string) :
  JS.index_is str (JS.strLength str - 1) percent = true <-> endsWithPercent str.
Proof. apply index_last. Qed.

Lemma not_true_false (b : bool) (P : Prop) : (b = true <-> P) -> ~ P -> b = false.
Proof. destruct b; [intros [H _] N; now destruct N; apply H | reflexivity]. Qed.

Lemma parseWhereLike_starts (str : string) :
  startsWithPercent str ->
  equals (parseWhereLike str) = None /\ beginsWith (parseWhereLike str) = None.
Proof.
  intros H. apply startsWithPercent_index in H. unfold parseWhereLike.
  rewrite H. destruct (JS.index_is str (JS.strLength str - 1) percent); now split.
Qed.

Lemma parseWhereLike_equals (str : string) (text : SQL_ValueString) :
  equals (parseWhereLike str) = Some text ->
  value text = str /\ ~ startsWithPercent str /\ ~ endsWithPercent str.
Proof.
  rewrite <- startsWithPercent_index, <- endsWithPercent_index.
  unfold parseWhereLike.
  destruct (JS.index_is str 0 percent), (JS.index_is str (JS.strLength str - 1) percent);
    cbn; intros H; try discriminate.
  injection H as <-. repeat split; discriminate.
Qed.

Lemma parseWhereLike_beginsWith (str : string) (prefix : SQL_ValueString) :
  beginsWith (parseWhereLike str) = Some prefix ->
  equals (parseWhereLike str) = None /\
  str = (value prefix ++ String percent EmptyString)%string /\
  ~ startsWithPercent str.
Proof.
  rewrite <- startsWithPercent_index.
  pose proof (endsWithPercent_index str) as L. revert L.
  unfold parseWhereLike.
  destruct (JS.index_is str 0 percent), (JS.index_is str (JS.strLength str - 1) percent);
    cbn; intros L H; try discriminate.
  injection H as <-. destruct L as [L _]. destruct (L eq_refl) as [init ->].
  cbn [value]. rewrite (substr_init init percent). repeat split. discriminate.
Qed.

Lemma applyWhere_LIKE_starts (Q : list Query) (col str : string) :
  startsWithPercent str ->
  applyWhere Q (binary_expr "LIKE" (column_ref col) (string_value str)) =
  Throw LikeUnsupportedTerm.
Proof.
  intros H. apply parseWhereLike_starts in H. destruct H as [He Hb].
  cbn [applyWhere String.eqb Ascii.eqb Bool.eqb]. cbn zeta.
  now rewrite He, Hb.
Qed.

(** C6: for every query set Q and every LIKE node whose left operand is a
    column reference col and whose right operand is a string literal: if
    the pattern decomposes to an equality (the text is the pattern), every
    query of Q is refined with the single filter col = text; if it
    decomposes to a prefix (the pattern is the prefix followed by %), every
    query of Q is refined with two conjoined conditions, first
    (col, >=, prefix) and then (col, <, successor(prefix)) on the result,
    so a single seed yields one query carrying both range filters. *)
Theorem applyWhere_LIKE (Q : list Query) (col pattern : string) :
  let astWhere := binary_expr "LIKE" (column_ref col) (string_value pattern) in
  (forall text, equals (parseWhereLike pattern) = Some text ->
     value text = pattern /\
     applyWhere Q astWhere = applyCondition Q col "=" (string_value (value text)) /\
     forall n, astValueToNative (string_value (value text)) = Ok n ->
       applyWhere Q astWhere = Ok (refineAll col "==" n Q) /\
       forall q, applyWhere [q] astWhere = Ok [q ++ [mkFilter col "==" n]]) /\
  (forall prefix, beginsWith (parseWhereLike pattern) = Some prefix ->
     pattern = (value prefix ++ String percent EmptyString)%string /\
     applyWhere Q astWhere =
       (bounded <- applyCondition Q col ">=" (string_value (value prefix)) ;;
        applyCondition bounded col "<"
          (string_value (prefixSuccessor (value prefix)))) /\
     forall lo hi,
       astValueToNative (string_value (value prefix)) = Ok lo ->
       astValueToNative (string_value (prefixSuccessor (value prefix))) = Ok hi ->
       applyWhere Q astWhere = Ok (refineAll col "<" hi (refineAll col ">=" lo Q)) /\
       forall q, applyWhere [q] astWhere =
                 Ok [q ++ [mkFilter col ">=" lo; mkFilter col "<" hi]]).
Proof.
  cbn zeta. split.
  - intros text He. destruct (parseWhereLike_equals _ _ He) as [Ht _].
    assert (E : forall Q',
      applyWhere Q' (binary_expr "LIKE" (column_ref col) (string_value pattern)) =
      applyCondition Q' col "=" (string_value (value text))).
    { intros Q'. cbn [applyWhere String.eqb Ascii.eqb Bool.eqb]. cbn zeta.
      now rewrite He. }
    split; [exact Ht |]. split; [apply E |].
    intros n Hn. split; [| intros q]; rewrite E;
      now rewrite (applyCondition_mapped _ col "=" "==" _ n).
  - intros prefix Hb. destruct (parseWhereLike_beginsWith _ _ Hb) as (He & Hp & _).
    assert (E : forall Q',
      applyWhere Q' (binary_expr "LIKE" (column_ref col) (string_value pattern)) =
      (bounded <- applyCondition Q' col ">=" (string_value (value prefix)) ;;
       applyCondition bounded col "<"
         (string_value (prefixSuccessor (value prefix))))).
    { intros Q'. cbn [applyWhere String.eqb Ascii.eqb Bool.eqb]. cbn zeta.
      now rewrite He, Hb. }
    split; [exact Hp |]. split; [apply E |].
    intros lo hi Hlo Hhi.
    split; [| intros q; rewrite <- refineAll_twice_seed]; rewrite E;
      now apply applyCondition_range.
Qed.

(** C7: the LIKE pattern decomposer returns on every string, populating
    exactly one of equals / beginsWith / endsWith / contains, and which one
    depends only on whether % is the first and the last character of the
    pattern: both, contains; first only, endsWith; last only, beginsWith;
    neither, equals.  The unsupported shapes are rejected by the
    translator: translating col LIKE pattern for a pattern that starts with
    % (substring or suffix match) throws the unsupported-LIKE error. *)
Theorem parseWhereLike_total (str : string) :
  populated (parseWhereLike str) = 1 /\
  (startsWithPercent str -> endsWithPercent str ->
     exists text, parseWhereLike str = likeContains text) /\
  (forall mid, str = String percent (mid ++ String percent EmptyString)%string ->
     parseWhereLike str = likeContains mid) /\
  (forall rest, str = String percent rest -> ~ endsWithPercent str ->
     parseWhereLike str = likeEndsWith rest) /\
  (forall init, str = (init ++ String percent EmptyString)%string ->
     ~ startsWithPercent str ->
     parseWhereLike str = likeBeginsWith init) /\
  (~ startsWithPercent str -> ~ endsWithPercent str ->
     parseWhereLike str = likeEquals str) /\
  (forall Q col, startsWithPercent str ->
     applyWhere Q (binary_expr "LIKE" (column_ref col) (string_value str)) =
     Throw LikeUnsupportedTerm).
Proof.
  pose proof (startsWithPercent_index str) as F.
  pose proof (endsWithPercent_index str) as L.
  repeat split.
  - unfold parseWhereLike.
    destruct (JS.index_is str 0 percent),
             (JS.index_is str (JS.strLength str - 1) percent); reflexivity.
  - intros Hs He. apply F in Hs. apply L in He. unfold parseWhereLike.
    rewrite Hs, He. eexists. reflexivity.
  - intros mid ->. unfold parseWhereLike.
    assert (Hs : JS.index_is (String percent (mid ++ String percent EmptyString)) 0
                   percent = true) by reflexivity.
    rewrite Hs.
    assert (He : endsWithPercent (String percent (mid ++ String percent EmptyString)))
      by (exists (String percent mid); reflexivity).
    apply endsWithPercent_index in He. rewrite He.
    rewrite (substr_middle percent percent mid). reflexivity.
  - intros rest -> He. unfold parseWhereLike.
    rewrite (not_true_false _ _ (endsWithPercent_index (String percent rest)) He).
    assert (Hs : JS.index_is (String percent rest) 0 percent = true) by reflexivity.
    rewrite Hs, substring_rest. reflexivity.
  - intros init -> Hs. unfold parseWhereLike.
    rewrite (not_true_false _ _
      (startsWithPercent_index (init ++ String percent EmptyString)%string) Hs).
    assert (He : endsWithPercent (init ++ String percent EmptyString)%string)
      by (now exists init).
    apply endsWithPercent_index in He. rewrite He.
    rewrite (substr_init init percent). reflexivity.
  - intros Hs He. unfold parseWhereLike.
    now rewrite (not_true_false _ _ F Hs), (not_true_false _ _ L He).
  - intros Q col Hs. now apply applyWhere_LIKE_starts.
Qed.

(** C10: on the pattern made of the single character %, the decomposer
    takes the branch of a leading and a trailing % (the same character is
    first and last) and returns a contains result holding the empty
    string; translating col LIKE % therefore throws the unsupported-LIKE
    error and produces no query. *)
Theorem parseWhereLike_percent :
  let str := String percent EmptyString in
  JS.index_is str 0 percent = true /\
  JS.index_is str (JS.strLength str - 1) percent = true /\
  parseWhereLike str = likeContains EmptyString /\
  forall (Q : list Query) (col : string),
    applyWhere Q (binary_expr "LIKE" (column_ref col) (string_value str)) =
    Throw LikeUnsupportedTerm.
Proof.
  cbn zeta. do 3 (split; [reflexivity |]). intros Q col.
  apply applyWhere_LIKE_starts. now exists EmptyString.
Qed.

End Correctness.

(** ** The operator mapper *)

Lemma whereFilterOp_eqb (op : string) :
  whereFilterOp op =
  if existsb (String.eqb op) ["="; "IS"] then Ok "=="
  else if existsb (String.eqb op) ["<"; "<="; ">"; ">="] then Ok op
  else if op =? "CONTAINS" then Ok "array-contains"
  else if op =? "CONTAINS-ANY" then Ok "array-contains-any"
  else if existsb (String.eqb op) ["NOT"; "NOT CONTAINS"]
       then Throw NotOperatorUnsupported
  else Throw UnknownWhereOperator.
Proof.
  unfold whereFilterOp. cbn [existsb]. now rewrite !orb_false_r, !orb_assoc.
Qed.

Lemma existsb_eqb_In (op : string) (tokens : list string) :
  existsb (String.eqb op) tokens = true <-> In op tokens.
Proof.
  rewrite existsb_exists. split.
  - intros (t & Hin & Heq). apply String.eqb_eq in Heq. now subst.
  - intros Hin. exists op. split; [exact Hin | apply String.eqb_refl].
Qed.

(** One test of the mapper's [switch]: the token is one of a case's labels
    (first goal) or none of them (second goal). *)
Ltac token_test op test :=
  let E := fresh "E" in
  lazymatch test with
  | existsb (String.eqb op) ?labels =>
      destruct test eqn:E; [apply existsb_eqb_In in E | clear E]
  | String.eqb op ?label =>
      destruct (String.eqb_spec op label) as [E | E];
      [apply eq_sym, (@or_introl _ False) in E; change (In op [label]) in E
      | clear E]
  end.

Ltac token_case op :=
  lazymatch goal with
  | |- (if ?test then _ else _) = _ -> _ => token_test op test
  | |- (if ?test then _ else _) = _ => token_test op test
  end.

(** C8: the operator mapper maps = and IS to the equality filter operator,
    passes <, <=, >, >= through unchanged, maps CONTAINS to array-contains
    and CONTAINS-ANY to array-contains-any, throws the unsupported-operator
    error for NOT and NOT CONTAINS and the unknown-operator error for every
    other token; it returns a filter operator for no token outside the
    mapped set. *)
Theorem whereFilterOp_table :
  whereFilterOp "=" = Ok "==" /\
  whereFilterOp "IS" = Ok "==" /\
  (forall op, In op ["<"; "<="; ">"; ">="] -> whereFilterOp op = Ok op) /\
  whereFilterOp "CONTAINS" = Ok "array-contains" /\
  whereFilterOp "CONTAINS-ANY" = Ok "array-contains-any" /\
  whereFilterOp "NOT" = Throw NotOperatorUnsupported /\
  whereFilterOp "NOT CONTAINS" = Throw NotOperatorUnsupported /\
  (forall op, ~ In op (mappedTokens ++ ["NOT"; "NOT CONTAINS"]) ->
     whereFilterOp op = Throw UnknownWhereOperator) /\
  (forall op fop, whereFilterOp op = Ok fop -> In op mappedTokens).
Proof.
  repeat split.
  - intros op Hin. cbn in Hin.
    repeat (destruct Hin as [<- | Hin]; [reflexivity |]). contradiction.
  - intros op Hnot. rewrite whereFilterOp_eqb.
    repeat (token_case op; [exfalso; apply Hnot; cbn in *; tauto |]).
    reflexivity.
  - intros op fop. rewrite whereFilterOp_eqb.
    repeat (token_case op;
            [first [intros _; cbn in *; tauto | intros H; discriminate H] |]).
    intros H. discriminate H.
Qed.

(** ** The rules at work on the reference implementation *)

Import Sample.

(** [rating > 2 AND name = 'x'] against two queries: two queries come out,
    not four. *)
Lemma applyWhere_AND_witness :
  let Q := [[]; [flt "a" "==" native_null]] in
  let gt := flt "rating" ">" (native_number 2%Z) in
  let eq := flt "name" "==" (native_string "x") in
  let QL := [[gt]; [flt "a" "==" native_null; gt]] in
  let QR := [[eq]; [flt "a" "==" native_null; eq]] in
  let QLR := [[gt; eq]; [flt "a" "==" native_null; gt; eq]] in
  applyWhere Q (binary_expr "AND" rating_gt_2 name_is_x) = Ok QLR /\
  length QLR * length Q = length QL * length QR.
Proof.
  intros Q gt eq QL QR QLR. split; [reflexivity |].
  refine (proj2 (applyWhere_AND (U := utils) Q rating_gt_2 name_is_x) QL QR QLR _ _ _);
    reflexivity.
Defined.

(** [rating > 2 OR name = 'x'] against the seed. *)
Lemma applyWhere_OR_witness :
  applyWhere seed (binary_expr "OR" rating_gt_2 name_is_x) =
    Ok ([[flt "rating" ">" (native_number 2%Z)]] ++
        [[flt "name" "==" (native_string "x")]]) /\
  applyWhere seed (binary_expr "OR" rating_gt_2 rating_gt_2) =
    Ok ([[flt "rating" ">" (native_number 2%Z)]] ++
        [[flt "rating" ">" (native_number 2%Z)]]).
Proof.
  destruct (applyWhere_OR (U := utils) seed rating_gt_2 name_is_x _ _
              eq_refl eq_refl) as (H & _ & Hdup).
  split; [exact H | exact Hdup].
Defined.

(** [rating > 2 AND name = 'x'] against the seed: one query, with the
    filter of the left operand and then the filter of the right operand. *)
Lemma applyWhere_AND_singleton_witness :
  applyWhere [[]] (binary_expr "AND" rating_gt_2 name_is_x) =
    Ok [[flt "rating" ">" (native_number 2%Z); flt "name" "==" (native_string "x")]] /\
  exists qa qb,
    applyWhere [[]] rating_gt_2 = Ok [qa] /\ applyWhere [[]] name_is_x = Ok [qb].
Proof.
  split; [reflexivity |].
  apply (proj1 (applyWhere_AND_singleton (U := utils) [] rating_gt_2 name_is_x _
                  eq_refl)).
  reflexivity.
Defined.

(** [rating IN (1, 2, 3)] against the seed: three queries. *)
Lemma applyWhere_IN_witness :
  applyWhere seed
    (binary_expr "IN" col_rating
       (expr_list [number_value 1%Z; number_value 2%Z; number_value 3%Z])) =
  Ok [[flt "rating" "==" (native_number 1%Z)];
      [flt "rating" "==" (native_number 2%Z)];
      [flt "rating" "==" (native_number 3%Z)]] /\
  applyWhere seed (binary_expr "IN" (number_value 1%Z) col_rating) =
    Throw UnsupportedLeftSide /\
  applyWhere seed (binary_expr "IN" col_rating (number_value 1%Z)) =
    Throw UnsupportedRightSide.
Proof.
  split; [| split].
  - destruct (applyWhere_IN (U := utils) seed col_rating
                (expr_list [number_value 1%Z; number_value 2%Z; number_value 3%Z]))
      as [H _].
    destruct (H "rating" _ eq_refl eq_refl) as [_ Hn].
    refine (proj1 (proj2 (Hn [native_number 1%Z; native_number 2%Z; native_number 3%Z] _)
                     [])).
    repeat constructor.
  - exact (proj1 (proj2 (applyWhere_IN (U := utils) seed (number_value 1%Z) col_rating))
             eq_refl).
  - exact (proj2 (proj2 (applyWhere_IN (U := utils) seed col_rating (number_value 1%Z)))
             eq_refl eq_refl).
Defined.

(** [active != true] is one query, [active == false]; [rating <> 3] is two
    queries, [rating < 3] and [rating > 3]. *)
Lemma applyCondition_notEqual_witness :
  applyCondition seed "active" "!=" (bool_value true) =
    Ok [[flt "active" "==" (native_bool false)]] /\
  applyCondition seed "rating" "<>" (number_value 3%Z) =
    Ok [[flt "rating" "<" (native_number 3%Z)];
        [flt "rating" ">" (native_number 3%Z)]].
Proof.
  split.
  - destruct (applyCondition_notEqual (U := utils) seed "active" "!="
                (bool_value true) (or_introl eq_refl)) as [H _].
    exact (proj2 (proj2 (H true eq_refl) (native_bool false) eq_refl) []).
  - destruct (applyCondition_notEqual (U := utils) seed "rating" "<>"
                (number_value 3%Z) (or_intror eq_refl)) as [_ H].
    exact (proj2 (proj2 (H eq_refl) (native_number 3%Z) eq_refl) []).
Defined.

(** [name LIKE 'Jo%'] is one query with [name >= Jo] and [name < Jp];
    [name LIKE 'Jo'] is one query with [name == Jo]. *)
Lemma applyWhere_LIKE_witness :
  applyWhere seed (binary_expr "LIKE" col_name (string_value "Jo%")) =
    Ok [[flt "name" ">=" (native_string "Jo"); flt "name" "<" (native_string "Jp")]] /\
  applyWhere seed (binary_expr "LIKE" col_name (string_value "Jo")) =
    Ok [[flt "name" "==" (native_string "Jo")]].
Proof.
  split.
  - destruct (applyWhere_LIKE (U := utils) seed "name" "Jo%") as [_ H].
    destruct (H (stringASTWhereValue "Jo") eq_refl) as (_ & _ & Hn).
    exact (proj2 (Hn (native_string "Jo") (native_string "Jp") eq_refl eq_refl) []).
  - destruct (applyWhere_LIKE (U := utils) seed "name" "Jo") as [H _].
    destruct (H (stringASTWhereValue "Jo") eq_refl) as (_ & _ & Hn).
    exact (proj2 (Hn (native_string "Jo") eq_refl) []).
Defined.

(** The four shapes, and the two that the translator rejects. *)
Lemma parseWhereLike_total_witness :
  parseWhereLike "%abc%" = likeContains "abc" /\
  parseWhereLike "%abc" = likeEndsWith "abc" /\
  parseWhereLike "abc%" = likeBeginsWith "abc" /\
  parseWhereLike "abc" = likeEquals "abc" /\
  applyWhere seed (binary_expr "LIKE" col_name (string_value "%abc%")) =
    Throw LikeUnsupportedTerm /\
  applyWhere seed (binary_expr "LIKE" col_name (string_value "%abc")) =
    Throw LikeUnsupportedTerm.
Proof.
  assert (no_start : ~ startsWithPercent "abc%") by (intros [rest H]; discriminate H).
  assert (no_start' : ~ startsWithPercent "abc") by (intros [rest H]; discriminate H).
  assert (no_end : forall s, ~ endsWithPercent (String s "abc")).
  { intros s [[| a [| b [| c [| d [| e init]]]]] H]; cbn in H; discriminate H. }
  split; [| split; [| split; [| split; [| split]]]].
  - exact (proj1 (proj2 (proj2 (parseWhereLike_total (U := utils) "%abc%"))) "abc" eq_refl).
  - destruct (parseWhereLike_total (U := utils) "%abc") as (_ & _ & _ & H & _).
    exact (H "abc" eq_refl (no_end percent)).
  - destruct (parseWhereLike_total (U := utils) "abc%") as (_ & _ & _ & _ & H & _).
    exact (H "abc" eq_refl no_start).
  - destruct (parseWhereLike_total (U := utils) "abc") as (_ & _ & _ & _ & _ & H & _).
    refine (H no_start' _).
    intros [[| a [| b [| c [| d init]]]] E]; cbn in E; discriminate E.
  - destruct (parseWhereLike_total (U := utils) "%abc%") as (_ & _ & _ & _ & _ & _ & H).
    apply H. now exists "abc%".
  - destruct (parseWhereLike_total (U := utils) "%abc") as (_ & _ & _ & _ & _ & _ & H).
    apply H. now exists "abc".
Defined.

(** The operator mapper on a token of each row of its table. *)
Lemma whereFilterOp_table_witness :
  whereFilterOp "<=" = Ok "<=" /\
  whereFilterOp "!=" = Throw UnknownWhereOperator /\
  whereFilterOp "LIKE" = Throw UnknownWhereOperator.
Proof.
  destruct whereFilterOp_table as (_ & _ & Hpass & _ & _ & _ & _ & Hunknown & _).
  split; [| split].
  - apply Hpass. cbn. tauto.
  - apply Hunknown. cbn. intros H.
    repeat (destruct H as [H | H]; [discriminate H |]). exact H.
  - apply Hunknown. cbn. intros H.
    repeat (destruct H as [H | H]; [discriminate H |]). exact H.
Defined.

(** [rating BETWEEN 2 AND 5] is one query with [rating >= 2] and
    [rating <= 5]; with three values, or with no list, translation fails. *)
Lemma applyWhere_BETWEEN_witness :
  applyWhere seed
    (binary_expr "BETWEEN" col_rating (expr_list [number_value 2%Z; number_value 5%Z])) =
  Ok [[flt "rating" ">=" (native_number 2%Z); flt "rating" "<=" (native_number 5%Z)]] /\
  applyWhere seed
    (binary_expr "BETWEEN" col_rating
       (expr_list [number_value 2%Z; number_value 5%Z; number_value 7%Z])) =
  Throw BetweenNeedsTwoValues /\
  applyWhere seed (binary_expr "BETWEEN" col_rating (number_value 2%Z)) =
  Throw BetweenNeedsTwoValues.
Proof.
  split; [| split].
  - destruct (applyWhere_BETWEEN (U := utils) seed col_rating
                (expr_list [number_value 2%Z; number_value 5%Z])) as [H _].
    destruct (H "rating" _ _ eq_refl eq_refl) as [_ Hn].
    exact (proj2 (Hn (native_number 2%Z) (native_number 5%Z) eq_refl eq_refl) []).
  - destruct (applyWhere_BETWEEN (U := utils) seed col_rating
                (expr_list [number_value 2%Z; number_value 5%Z; number_value 7%Z]))
      as [_ H].
    exact (proj2 (H eq_refl) eq_refl).
  - destruct (applyWhere_BETWEEN (U := utils) seed col_rating (number_value 2%Z))
      as [_ H].
    exact (proj2 (H eq_refl) eq_refl).
Defined.


(** * Further properties of the translator *)

(** The range of the operator mapper. *)
Lemma whereFilterOp_Ok (op fop : string) :
  whereFilterOp op = Ok fop -> In op mappedTokens /\ In fop storeOperators.
Proof.
  rewrite whereFilterOp_eqb.
  repeat (token_case op;
          [first [intros H; injection H as <-; cbn in *; tauto
                 | intros H; discriminate H] |]).
  intros H. discriminate H.
Qed.

Section Laws.

Context {number : Type} `{U : Utils number}.

#[local] Abbreviation Node := (Node number).
#[local] Abbreviation Query := (Query number).
#[local] Abbreviation Filter := (Filter number).

(** ** Independence of the incoming queries *)


(** ** The number of queries *)

Lemma applyCondition_length (Q R : list Query) (f op : string) (v : Node) :
  applyCondition Q f op v = Ok R ->
  length R = (if isNotEqual op then if isBool v then 1 else 2 else 1) * length Q.
Proof.
  assert (P : forall o w S, isNotEqual o = false ->
            applyCondition Q f o w = Ok S -> length S = length Q).
  { intros o w S Ho. rewrite applyCondition_plain by exact Ho.
    intros H. apply bind_Ok in H. destruct H as (n & _ & H).
    apply bind_Ok in H. destruct H as (fop & _ & H).
    injection H as <-. apply length_map. }
  intros H0. destruct (isNotEqual op) eqn:Hne.
  - rewrite applyCondition_rec, Hne in H0. revert H0.
    assert (Split : (lower <- applyCondition Q f "<" v ;;
                     upper <- applyCondition Q f ">" v ;;
                     Ok (lower ++ upper)) = Ok R -> length R = 2 * length Q).
    { intros H. apply bind_Ok in H. destruct H as (lower & Hl & H).
      apply bind_Ok in H. destruct H as (upper & Hu & H). injection H as <-.
      rewrite length_app, (P "<" _ _ eq_refl Hl), (P ">" _ _ eq_refl Hu). lia. }
    destruct v; cbn [isBool]; try exact Split.
    intros H. rewrite (P "=" _ _ eq_refl H). lia.
  - rewrite (P op _ _ Hne H0). lia.
Qed.

Lemma concatResults_length {A : Type} (f : A -> result (list Query))
    (values : list A) (n : nat) (R : list Query) :
  (forall v S, f v = Ok S -> length S = n) ->
  concatResults (map f values) = Ok R -> length R = length values * n.
Proof.
  intros Hf. revert R. induction values as [| v values IH]; cbn; intros R H.
  - injection H as <-. reflexivity.
  - apply bind_Ok in H. destruct H as (here & Hh & H).
    apply bind_Ok in H. destruct H as (there & Ht & H). injection H as <-.
    rewrite length_app, (Hf _ _ Hh), (IH _ Ht). reflexivity.
Qed.

(** Two conditions in sequence that each keep the number of queries. *)
Lemma applyCondition_twice_length (Q R : list Query) (f op1 op2 : string)
    (v1 v2 : Node) :
  isNotEqual op1 = false -> isNotEqual op2 = false ->
  (bounded <- applyCondition Q f op1 v1 ;; applyCondition bounded f op2 v2) = Ok R ->
  length R = length Q.
Proof.
  intros H1 H2 H. apply bind_Ok in H. destruct H as (S & HS & HR).
  apply applyCondition_length in HS, HR. rewrite H1 in HS. rewrite H2 in HR. lia.
Qed.

(** X2: a successful translation returns, for every incoming query, as many
    queries as the expression's fan-out: the product of the fan-outs of the
    operands of AND, their sum for OR, the number of values for IN, two for
    a not-equal on a value that is no boolean, and one for every other
    condition.  In particular the empty query set is translated to the
    empty query set. *)
Theorem applyWhere_fanout (astWhere : Node) (Q R : list Query) :
  applyWhere Q astWhere = Ok R -> length R = fanout astWhere * length Q.
Proof.
  revert Q R.
  induction astWhere as [operator l IHl r IHr | column | values | | | | |];
    intros Q R; try (intros H; discriminate H).
  - cbn [applyWhere fanout].
    destruct (operator =? "AND").
    { intros H. apply bind_Ok in H. destruct H as (QL & HL & HR).
      rewrite (IHr _ _ HR), (IHl _ _ HL). lia. }
    destruct (operator =? "OR").
    { intros H. apply bind_Ok in H. destruct H as (QL & HL & H).
      apply bind_Ok in H. destruct H as (QR & HR & H). injection H as <-.
      rewrite length_app, (IHl _ _ HL), (IHr _ _ HR). lia. }
    destruct (operator =? "IN").
    { destruct l; try (intros H; discriminate H).
      destruct r; try (intros H; discriminate H).
      rewrite forEachPush_concat. apply concatResults_length.
      intros v S HS. apply applyCondition_length in HS. cbn in HS. lia. }
    destruct (String.eqb_spec operator "LIKE") as [-> | _].
    { destruct l; try (intros H; discriminate H).
      destruct r; try (intros H; discriminate H).
      cbn zeta. cbn [isNotEqual String.eqb Ascii.eqb Bool.eqb orb].
      destruct (equals (parseWhereLike v)).
      { intros H. apply applyCondition_length in H. cbn in H. lia. }
      destruct (beginsWith (parseWhereLike v)); [| intros H; discriminate H].
      intros H. apply applyCondition_twice_length in H; [lia | reflexivity ..]. }
    destruct (String.eqb_spec operator "BETWEEN") as [-> | _].
    { destruct l; try (intros H; discriminate H).
      destruct r as [| | [| lo [| hi [|]]] | | | | |]; try (intros H; discriminate H).
      cbn [isNotEqual String.eqb Ascii.eqb Bool.eqb orb].
      intros H. apply applyCondition_twice_length in H; [lia | reflexivity ..]. }
    destruct (String.eqb_spec operator "CONTAINS") as [-> | _].
    { destruct l; try (intros H; discriminate H).
      destruct (isScalarValue r); cbn [assert bind]; [| intros H; discriminate H].
      intros H. apply applyCondition_length in H. cbn in H. cbn. lia. }
    destruct l; try (intros H; discriminate H).
    apply applyCondition_length.
  - cbn. intros H. injection H as <-. rewrite length_map. lia.
Qed.

(** ** What a translation adds to a query *)

Lemma Extends_weaken (P P' : Filter -> Prop) (Q R : list Query) :
  (forall x, P x -> P' x) -> Extends P Q R -> Extends P' Q R.
Proof.
  intros HP. unfold Extends. apply Forall_impl.
  intros r (q & fs & Hq & Hr & Hfs). exists q, fs. repeat split; try assumption.
  revert Hfs. apply Forall_impl. exact HP.
Qed.

Lemma Extends_trans (P : Filter -> Prop) (Q R S : list Query) :
  Extends P Q R -> Extends P R S -> Extends P Q S.
Proof.
  unfold Extends. rewrite !Forall_forall. intros HQR HRS s Hs.
  destruct (HRS s Hs) as (r & fs2 & Hr & -> & Hfs2).
  destruct (HQR r Hr) as (q & fs1 & Hq & -> & Hfs1).
  exists q, (fs1 ++ fs2). repeat split.
  - exact Hq.
  - symmetry. apply app_assoc.
  - apply Forall_app. now split.
Qed.

Lemma Extends_app (P : Filter -> Prop) (Q R1 R2 : list Query) :
  Extends P Q R1 -> Extends P Q R2 -> Extends P Q (R1 ++ R2).
Proof. unfold Extends. intros H1 H2. apply Forall_app. now split. Qed.

Lemma Extends_refineAll (P : Filter -> Prop) (Q : list Query) (f op : string)
    (v : Native number) :
  P (mkFilter f op v) -> Extends P Q (refineAll f op v Q).
Proof.
  intros HP. unfold Extends, refineAll. rewrite Forall_map, Forall_forall.
  intros q Hq. exists q, [mkFilter f op v]. repeat split; [exact Hq |].
  now constructor.
Qed.

Lemma nativeOn_incl (columns columns' : list string) (x : Filter) :
  incl columns columns' -> nativeOn columns x -> nativeOn columns' x.
Proof. intros Hi [Hf Ho]. split; [now apply Hi | exact Ho]. Qed.

Lemma applyCondition_Extends (Q R : list Query) (f op : string) (v : Node) :
  applyCondition Q f op v = Ok R -> Extends (nativeOn [f]) Q R.
Proof.
  assert (P : forall o w S, isNotEqual o = false ->
            applyCondition Q f o w = Ok S -> Extends (nativeOn [f]) Q S).
  { intros o w S Ho. rewrite applyCondition_plain by exact Ho.
    intros H. apply bind_Ok in H. destruct H as (n & _ & H).
    apply bind_Ok in H. destruct H as (fop & Hop & H). injection H as <-.
    apply Extends_refineAll. split; [now left |].
    now apply (whereFilterOp_Ok o). }
  intros H0. destruct (isNotEqual op) eqn:Hne; [| now apply (P op v)].
  rewrite applyCondition_rec, Hne in H0. revert H0.
  assert (Split : (lower <- applyCondition Q f "<" v ;;
                   upper <- applyCondition Q f ">" v ;;
                   Ok (lower ++ upper)) = Ok R -> Extends (nativeOn [f]) Q R).
  { intros H. apply bind_Ok in H. destruct H as (lower & Hl & H).
    apply bind_Ok in H. destruct H as (upper & Hu & H). injection H as <-.
    apply Extends_app; [apply (P "<" v) | apply (P ">" v)]; auto. }
  destruct v; try exact Split. now apply P.
Qed.

Lemma concatResults_Extends {A : Type} (P : Filter -> Prop)
    (f : A -> result (list Query)) (values : list A) (Q R : list Query) :
  (forall v S, f v = Ok S -> Extends P Q S) ->
  concatResults (map f values) = Ok R -> Extends P Q R.
Proof.
  intros Hf. revert R. induction values as [| v values IH]; cbn; intros R H.
  - injection H as <-. constructor.
  - apply bind_Ok in H. destruct H as (here & Hh & H).
    apply bind_Ok in H. destruct H as (there & Ht & H). injection H as <-.
    apply Extends_app; eauto.
Qed.

Lemma applyCondition_twice_Extends (Q R : list Query) (f op1 op2 : string)
    (v1 v2 : Node) :
  (bounded <- applyCondition Q f op1 v1 ;; applyCondition bounded f op2 v2) = Ok R ->
  Extends (nativeOn [f]) Q R.
Proof.
  intros H. apply bind_Ok in H. destruct H as (S & HS & HR).
  eapply Extends_trans; eapply applyCondition_Extends; eassumption.
Qed.

(** X3: a successful translation only appends: every query it returns is
    one of the incoming queries, with all its filters in their order,
    followed by added filters; every added filter is on a column the
    expression tests and carries one of the seven filter operators of the
    store. *)
Theorem applyWhere_Extends (astWhere : Node) (Q R : list Query) :
  applyWhere Q astWhere = Ok R -> Extends (nativeOn (columnsOf astWhere)) Q R.
Proof.
  revert Q R.
  induction astWhere as [operator l IHl r IHr | column | values | | | | |];
    intros Q R; try (intros H; discriminate H).
  - cbn [applyWhere columnsOf].
    destruct (operator =? "AND").
    { cbn [orb]. intros H. apply bind_Ok in H. destruct H as (QL & HL & HR).
      apply Extends_trans with (R := QL).
      - eapply Extends_weaken; [| exact (IHl _ _ HL)].
        intros x. apply nativeOn_incl, incl_appl, incl_refl.
      - eapply Extends_weaken; [| exact (IHr _ _ HR)].
        intros x. apply nativeOn_incl, incl_appr, incl_refl. }
    destruct (operator =? "OR").
    { cbn [orb]. intros H. apply bind_Ok in H. destruct H as (QL & HL & H).
      apply bind_Ok in H. destruct H as (QR & HR & H). injection H as <-.
      apply Extends_app.
      - eapply Extends_weaken; [| exact (IHl _ _ HL)].
        intros x. apply nativeOn_incl, incl_appl, incl_refl.
      - eapply Extends_weaken; [| exact (IHr _ _ HR)].
        intros x. apply nativeOn_incl, incl_appr, incl_refl. }
    cbn [orb].
    destruct (operator =? "IN").
    { destruct l; try (intros H; discriminate H).
      destruct r; try (intros H; discriminate H).
      rewrite forEachPush_concat. apply concatResults_Extends.
      intros v S. apply applyCondition_Extends. }
    destruct (operator =? "LIKE").
    { destruct l; try (intros H; discriminate H).
      destruct r; try (intros H; discriminate H).
      cbn zeta. destruct (equals (parseWhereLike v)); [apply applyCondition_Extends |].
      destruct (beginsWith (parseWhereLike v)); [| intros H; discriminate H].
      apply applyCondition_twice_Extends. }
    destruct (operator =? "BETWEEN").
    { destruct l; try (intros H; discriminate H).
      destruct r as [| | [| lo [| hi [|]]] | | | | |]; try (intros H; discriminate H).
      apply applyCondition_twice_Extends. }
    destruct (operator =? "CONTAINS").
    { destruct l; try (intros H; discriminate H).
      destruct (isScalarValue r); cbn [assert bind]; [| intros H; discriminate H].
      apply applyCondition_Extends. }
    destruct l; try (intros H; discriminate H).
    apply applyCondition_Extends.
  - cbn [applyWhere columnsOf]. intros H. injection H as <-.
    apply (Extends_refineAll _ Q column "==" (native_bool true)).
    split; cbn; tauto.
Qed.

(** ** Laws of AND and OR *)


(** X4: AND and OR are associative: regrouping a conjunction, or a
    disjunction, changes neither the queries returned, nor their order, nor
    the error thrown. *)
Theorem applyWhere_assoc (Q : list Query) (a b c : Node) :
  applyWhere Q (binary_expr "AND" (binary_expr "AND" a b) c) =
  applyWhere Q (binary_expr "AND" a (binary_expr "AND" b c)) /\
  applyWhere Q (binary_expr "OR" (binary_expr "OR" a b) c) =
  applyWhere Q (binary_expr "OR" a (binary_expr "OR" b c)).
Proof.
  cbn [applyWhere String.eqb Ascii.eqb Bool.eqb]. split.
  - destruct (applyWhere Q a); reflexivity.
  - destruct (applyWhere Q a) as [QA |]; [| reflexivity].
    destruct (applyWhere Q b) as [QB |]; [| reflexivity].
    destruct (applyWhere Q c) as [QC |]; [| reflexivity].
    cbn. now rewrite app_assoc.
Qed.

(** X5: AND distributes over OR on its right operand:
    a AND (b OR c) is translated exactly as (a AND b) OR (a AND c), with the
    same queries in the same order and the same error. *)
Theorem applyWhere_AND_OR_distr (Q : list Query) (a b c : Node) :
  applyWhere Q (binary_expr "AND" a (binary_expr "OR" b c)) =
  applyWhere Q (binary_expr "OR" (binary_expr "AND" a b) (binary_expr "AND" a c)).
Proof.
  cbn [applyWhere String.eqb Ascii.eqb Bool.eqb].
  destruct (applyWhere Q a); reflexivity.
Qed.


(** ** The rewrites, as expressions of AND, OR and comparisons *)

(** X7: IN is the OR of the equality tests on its values: on an empty list
    it returns no query; on one value it is the equality test; on a list
    v :: vs it is (col = v) OR (col IN vs), errors included. *)
Theorem applyWhere_IN_unfold (Q : list Query) (col : string) (v : Node)
    (vs : list Node) :
  let isIn values := binary_expr "IN" (column_ref col) (expr_list values) in
  let equal := binary_expr "=" (column_ref col) v in
  applyWhere Q (isIn []) = Ok [] /\
  applyWhere Q (isIn [v]) = applyWhere Q equal /\
  applyWhere Q (isIn (v :: vs)) = applyWhere Q (binary_expr "OR" equal (isIn vs)).
Proof.
  cbn zeta. cbn [applyWhere String.eqb Ascii.eqb Bool.eqb forEachPush app].
  split; [reflexivity |]. split.
  - destruct (applyCondition Q col "=" v); reflexivity.
  - destruct (applyCondition Q col "=" v) as [here |]; [| reflexivity].
    cbn [bind]. apply forEachPush_acc.
Qed.

(** X8: the range rewrites are conjunctions of two comparisons: BETWEEN lo
    AND hi is translated exactly as (col >= lo) AND (col <= hi), and LIKE
    on a pattern prefix% whose first character is not % exactly as
    (col >= prefix) AND (col < prefixSuccessor(prefix)). *)
Theorem applyWhere_range_desugar (Q : list Query) (col : string) :
  let column := column_ref col in
  (forall lo hi,
     applyWhere Q (binary_expr "BETWEEN" column (expr_list [lo; hi])) =
     applyWhere Q (binary_expr "AND" (binary_expr ">=" column lo)
                                     (binary_expr "<=" column hi))) /\
  (forall prefix,
     ~ startsWithPercent (prefix ++ String percent EmptyString)%string ->
     applyWhere Q (binary_expr "LIKE" column
                     (string_value (prefix ++ String percent EmptyString)%string)) =
     applyWhere Q (binary_expr "AND"
                     (binary_expr ">=" column (string_value prefix))
                     (binary_expr "<" column
                        (string_value (prefixSuccessor prefix))))).
Proof.
  cbn zeta. split; [reflexivity |].
  intros prefix Hs.
  assert (E : parseWhereLike (prefix ++ String percent EmptyString)%string =
              likeBeginsWith prefix).
  { unfold parseWhereLike.
    rewrite (not_true_false _ _ (startsWithPercent_index _) Hs).
    assert (He : endsWithPercent (prefix ++ String percent EmptyString)%string)
      by (now exists prefix).
    apply endsWithPercent_index in He. rewrite He.
    now rewrite (substr_init prefix percent). }
  cbn [applyWhere String.eqb Ascii.eqb Bool.eqb]. cbn zeta. rewrite E. reflexivity.
Qed.

(** ** Comparisons *)

(** An operator that [applyWhere] does not rewrite reaches its last branch. *)
Lemma applyWhere_comparison (Q : list Query) (op col : string) (v : Node) :
  ~ In op rewrittenOperators ->
  applyWhere Q (binary_expr op (column_ref col) v) = applyCondition Q col op v.
Proof.
  intros Hop. cbn [applyWhere].
  repeat match goal with
  | |- (if String.eqb op ?label then _ else _) = _ =>
      destruct (String.eqb_spec op label) as [E | _];
      [exfalso; apply Hop; subst op; cbn; tauto |]
  end.
  reflexivity.
Qed.

(** X9: for every operator other than AND and OR, a left operand that is
    not a column reference makes the translation throw the left-side error,
    whatever the operator, the right operand and the incoming queries. *)
Theorem applyWhere_left_operand (Q : list Query) (op : string) (l r : Node) :
  op <> "AND" -> op <> "OR" -> isColumnRef l = false ->
  applyWhere Q (binary_expr op l r) = Throw UnsupportedLeftSide.
Proof.
  intros HA HO Hl. cbn [applyWhere].
  apply String.eqb_neq in HA, HO. rewrite HA, HO.
  destruct l; try discriminate Hl;
    repeat match goal with
    | |- (if ?test then _ else _) = _ => destruct test
    end; reflexivity.
Qed.

(** X10: CONTAINS on a column accepts only a string, number, boolean or
    null literal on its right: such a value adds the one filter
    array-contains to every query, and any other right operand throws the
    CONTAINS error before the value is converted. *)
Theorem applyWhere_CONTAINS (Q : list Query) (col : string) (v : Node) :
  (isScalarValue v = true ->
   forall n, astValueToNative v = Ok n ->
     applyWhere Q (binary_expr "CONTAINS" (column_ref col) v) =
     Ok (refineAll col "array-contains" n Q)) /\
  (isScalarValue v = false ->
   applyWhere Q (binary_expr "CONTAINS" (column_ref col) v) =
   Throw ContainsUnsupportedValue).
Proof.
  cbn [applyWhere String.eqb Ascii.eqb Bool.eqb]. split; intros Hv.
  - intros n Hn. rewrite Hv. cbn [assert bind].
    now apply applyCondition_mapped.
  - now rewrite Hv.
Qed.

(** X11: a comparison of a column with =, IS, <, <=, >, >= or CONTAINS-ANY
    whose value converts adds exactly one filter to every query: the mapped
    operator on that column with the converted value. *)
Theorem applyWhere_mapped_comparison (Q : list Query) (op col : string)
    (v : Node) (n : Native number) :
  In op ["="; "IS"; "<"; "<="; ">"; ">="; "CONTAINS-ANY"] ->
  astValueToNative v = Ok n ->
  exists fop,
    whereFilterOp op = Ok fop /\
    applyWhere Q (binary_expr op (column_ref col) v) = Ok (refineAll col fop n Q).
Proof.
  intros Hop Hv. cbn in Hop.
  repeat (destruct Hop as [<- | Hop];
          [eexists; split; [reflexivity |];
           cbn [applyWhere String.eqb Ascii.eqb Bool.eqb];
           now apply applyCondition_mapped |]).
  contradiction.
Qed.

(** X12: in a comparison the value is converted before the operator is
    mapped: when the conversion throws, the translation throws that error,
    even if the operator is unsupported or unknown; the operator's error is
    thrown only when the value converts. *)
Theorem applyWhere_error_precedence (Q : list Query) (op col : string) (v : Node)
    (e : WhereError) :
  ~ In op rewrittenOperators -> isNotEqual op = false ->
  (astValueToNative v = Throw e ->
   applyWhere Q (binary_expr op (column_ref col) v) = Throw e) /\
  (forall n, astValueToNative v = Ok n -> whereFilterOp op = Throw e ->
   applyWhere Q (binary_expr op (column_ref col) v) = Throw e).
Proof.
  intros Hop Hne. rewrite applyWhere_comparison by exact Hop.
  rewrite applyCondition_plain by exact Hne. split.
  - intros ->. reflexivity.
  - intros n -> ->. reflexivity.
Qed.

(** X13: the four expressions col, col = true, col IS true and
    col != false (or col <> false) are translated alike, when the converter
    maps the literal true to the boolean true. *)
Theorem applyWhere_bare_column (Q : list Query) (col : string) :
  astValueToNative (bool_value true) = Ok (native_bool true) ->
  let column := column_ref col in
  applyWhere Q (binary_expr "=" column (bool_value true)) = applyWhere Q column /\
  applyWhere Q (binary_expr "IS" column (bool_value true)) = applyWhere Q column /\
  applyWhere Q (binary_expr "!=" column (bool_value false)) = applyWhere Q column /\
  applyWhere Q (binary_expr "<>" column (bool_value false)) = applyWhere Q column.
Proof.
  intros Hv. cbn zeta. cbn [applyWhere String.eqb Ascii.eqb Bool.eqb].
  assert (E : applyCondition Q col "=" (bool_value true) =
              Ok (refineAll col "==" (native_bool true) Q))
    by now apply applyCondition_mapped.
  repeat split.
  - exact E.
  - now apply applyCondition_mapped.
  - rewrite applyCondition_rec. exact E.
  - rewrite applyCondition_rec. exact E.
Qed.

(** ** Independence of the queries of a set *)

Lemma expand_queries_app (alts : list (list Filter)) (Q1 Q2 : list Query) :
  Permutation (expand alts (Q1 ++ Q2)) (expand alts Q1 ++ expand alts Q2).
Proof.
  unfold expand. induction alts as [| fs alts IH]; cbn [flat_map]; [constructor |].
  rewrite map_app, <- !app_assoc. apply Permutation_app_head.
  etransitivity; [apply Permutation_app_head, IH |].
  apply Permutation_app_swap_app.
Qed.

(** X14: the queries of the incoming set are translated independently of
    each other: the translation of Q1 ++ Q2 holds the queries of the
    translation of Q1 and those of the translation of Q2, each as many
    times (it is a permutation of their concatenation). *)
Theorem applyWhere_queries_app (astWhere : Node) (Q1 Q2 R1 R2 : list Query) :
  applyWhere Q1 astWhere = Ok R1 -> applyWhere Q2 astWhere = Ok R2 ->
  exists R, applyWhere (Q1 ++ Q2) astWhere = Ok R /\ Permutation R (R1 ++ R2).
Proof.
  intros H1 H2. destruct (applyWhere_alts _ _ _ H1) as [alts Ha].
  rewrite Ha in H1, H2. injection H1 as <-. injection H2 as <-.
  exists (expand alts (Q1 ++ Q2)). split; [apply Ha | apply expand_queries_app].
Qed.

End Laws.

(** ** The operator mapper and the LIKE decomposer *)

(** X15: the filter operators the mapper can return are exactly the seven
    operators of the store: every returned operator is one of them, and each
    of them is returned for some token. *)
Theorem whereFilterOp_range (fop : string) :
  (exists op, whereFilterOp op = Ok fop) <-> In fop storeOperators.
Proof.
  split.
  - intros [op H]. now apply (whereFilterOp_Ok op).
  - cbn. intros H.
    destruct H as [<- | H]; [now exists "=" |].
    destruct H as [<- | H]; [now exists "<" |].
    destruct H as [<- | H]; [now exists "<=" |].
    destruct H as [<- | H]; [now exists ">" |].
    destruct H as [<- | H]; [now exists ">=" |].
    destruct H as [<- | H]; [now exists "CONTAINS" |].
    destruct H as [<- | H]; [now exists "CONTAINS-ANY" | contradiction].
Qed.

Lemma percent_both_ends (str : string) :
  startsWithPercent str -> endsWithPercent str ->
  str = String percent EmptyString \/
  exists mid, str = String percent (mid ++ String percent EmptyString)%string.
Proof.
  intros [rest ->] [[| c init] E]; cbn in E.
  - left. exact E.
  - right. injection E as _ ->. now exists init.
Qed.

(** X16: decomposing a LIKE pattern loses nothing, but for the pattern made
    of % alone: the pattern a decomposition stands for is the pattern that
    was decomposed, so two patterns other than % with the same decomposition
    are equal; the pattern % alone decomposes like %%. *)
Theorem renderLike_parseWhereLike (str : string) :
  str <> String percent EmptyString ->
  renderLike (parseWhereLike str) = str /\
  (forall str', str' <> String percent EmptyString ->
     parseWhereLike str' = parseWhereLike str -> str' = str) /\
  parseWhereLike (String percent EmptyString) =
  parseWhereLike (String percent (String percent EmptyString)).
Proof.
  assert (RT : forall s, s <> String percent EmptyString ->
                renderLike (parseWhereLike s) = s).
  { intros s Hs. unfold parseWhereLike.
    destruct (JS.index_is s 0 percent) eqn:F;
      destruct (JS.index_is s (JS.strLength s - 1) percent) eqn:L.
    - pose proof (proj1 (startsWithPercent_index s) F) as Hstart.
      pose proof (proj1 (endsWithPercent_index s) L) as Hend.
      destruct (percent_both_ends s Hstart Hend) as [E | [mid E]];
        [contradiction |].
      cbn [renderLike contains value stringASTWhereValue]. rewrite E at 1 2.
      rewrite (substr_middle percent percent mid). now rewrite E.
    - apply startsWithPercent_index in F. destruct F as [rest ->].
      cbn [renderLike contains endsWith emptyWhereLike value stringASTWhereValue].
      now rewrite substring_rest.
    - apply endsWithPercent_index in L. destruct L as [init ->].
      cbn [renderLike contains endsWith beginsWith emptyWhereLike value
           stringASTWhereValue].
      now rewrite (substr_init init percent).
    - reflexivity. }
  intros Hs. split; [now apply RT |]. split; [| reflexivity].
  intros str' Hs' E. rewrite <- (RT str' Hs'), E. now apply RT.
Qed.

(** ** Not-equal and the loop of IN, as expressions and on errors *)

Section Rewrites.

Context {number : Type} `{U : Utils number}.

#[local] Abbreviation Node := (Node number).
#[local] Abbreviation Query := (Query number).

(** X17: in an expression the tokens != and <> are interchangeable, and a
    not-equal on a value that is no boolean literal is translated exactly
    as (col < v) OR (col > v), errors included. *)
Theorem applyWhere_notEqual_desugar (Q : list Query) (col : string) (v : Node) :
  let column := column_ref col in
  applyWhere Q (binary_expr "!=" column v) = applyWhere Q (binary_expr "<>" column v) /\
  (isBool v = false ->
   applyWhere Q (binary_expr "!=" column v) =
   applyWhere Q (binary_expr "OR" (binary_expr "<" column v)
                                  (binary_expr ">" column v))).
Proof.
  cbn zeta. cbn [applyWhere String.eqb Ascii.eqb Bool.eqb]. split.
  - now rewrite (applyCondition_rec Q col "!="), (applyCondition_rec Q col "<>").
  - intros Hv. rewrite (applyCondition_rec Q col "!=").
    destruct v; try reflexivity. discriminate Hv.
Qed.

Lemma applyCondition_equal_throw (Q : list Query) (col : string) (v : Node)
    (e : WhereError) :
  applyCondition Q col "=" v = Throw e <-> astValueToNative v = Throw e.
Proof.
  rewrite applyCondition_plain by reflexivity.
  destruct (astValueToNative v); cbn; split; intros H;
    first [discriminate H | injection H as <-; reflexivity].
Qed.

Lemma applyCondition_equal_Ok (Q : list Query) (col : string) (v : Node) :
  (exists R, applyCondition Q col "=" v = Ok R) <->
  (exists n, astValueToNative v = Ok n).
Proof.
  rewrite applyCondition_plain by reflexivity.
  destruct (astValueToNative v) as [n | e]; cbn; split; intros [x H];
    (discriminate H || eauto).
Qed.

(** X18: IN on a column and a list of values throws exactly when the
    conversion of one of the values throws, and the error is that of the
    first such value in list order. *)
Theorem applyWhere_IN_throw (Q : list Query) (col : string) (values : list Node)
    (e : WhereError) :
  applyWhere Q (binary_expr "IN" (column_ref col) (expr_list values)) = Throw e <->
  exists before v after,
    values = before ++ v :: after /\
    Forall (fun w => exists n, astValueToNative w = Ok n) before /\
    astValueToNative v = Throw e.
Proof.
  cbn [applyWhere String.eqb Ascii.eqb Bool.eqb]. rewrite forEachPush_concat.
  induction values as [| w values IH]; cbn [map concatResults].
  - split; [intros H; discriminate H |].
    intros (before & v & after & E & _). destruct before; discriminate E.
  - destruct (applyCondition Q col "=" w) as [here | e'] eqn:Hw; cbn [bind].
    + assert (Hn : exists n, astValueToNative w = Ok n)
        by (apply (applyCondition_equal_Ok Q col); eauto).
      split.
      * intros H.
        destruct (concatResults (map (applyCondition Q col "=") values)) as [there | e'']
          eqn:Hrest; [discriminate H |].
        cbn in H. injection H as ->.
        destruct (proj1 IH eq_refl) as (before & v & after & -> & Hb & Hv).
        exists (w :: before), v, after. repeat split; [now constructor | exact Hv].
      * intros (before & v & after & E & Hb & Hv).
        destruct before as [| w' before]; cbn in E; injection E as -> ->.
        { apply (applyCondition_equal_throw Q col) in Hv. rewrite Hv in Hw.
          discriminate Hw. }
        inversion Hb as [| ? ? _ Hb']; subst.
        rewrite (proj2 IH); [reflexivity |]. now exists before, v, after.
    + apply applyCondition_equal_throw in Hw. split.
      * intros H. injection H as <-. exists [], w, values. now repeat split.
      * intros (before & v & after & E & Hb & Hv).
        destruct before as [| w' before]; cbn in E; injection E as -> ->.
        { rewrite Hv in Hw. injection Hw as <-. reflexivity. }
        inversion Hb as [| ? ? [n Hn] _]; subst. rewrite Hn in Hw. discriminate Hw.
Qed.

End Rewrites.

(** ** The further properties at work on the reference implementation *)


(** [rating != 3] on the seed: two queries. *)
Lemma applyWhere_fanout_witness :
  let astWhere := binary_expr "!=" col_rating (number_value 3%Z) in
  length [[flt "rating" "<" (native_number 3%Z)];
          [flt "rating" ">" (native_number 3%Z)]] =
  fanout astWhere * length seed.
Proof.
  intros astWhere.
  refine (applyWhere_fanout (U := utils) astWhere seed _ _). reflexivity.
Defined.

(** [rating > 2 AND name = 'x'] on the seed. *)
Lemma applyWhere_Extends_witness :
  Extends (nativeOn ["rating"; "name"]) seed
    [[flt "rating" ">" (native_number 2%Z); flt "name" "==" (native_string "x")]].
Proof.
  refine (applyWhere_Extends (U := utils)
            (binary_expr "AND" rating_gt_2 name_is_x) seed _ _).
  reflexivity.
Defined.


(** [name LIKE 'Jo%'] is [name >= 'Jo' AND name < 'Jp']. *)
Lemma applyWhere_range_desugar_witness :
  applyWhere seed (binary_expr "LIKE" col_name (string_value "Jo%")) =
  applyWhere seed
    (binary_expr "AND" (binary_expr ">=" col_name (string_value "Jo"))
                       (binary_expr "<" col_name (string_value "Jp"))).
Proof.
  refine (proj2 (applyWhere_range_desugar (U := utils) seed "name") "Jo" _).
  intros [rest H]. discriminate H.
Defined.

(** [3 < rating]: the column is on the wrong side. *)
Lemma applyWhere_left_operand_witness :
  applyWhere seed (binary_expr "<" (number_value 3%Z) col_rating) =
  Throw UnsupportedLeftSide.
Proof.
  apply (applyWhere_left_operand (U := utils)); [discriminate .. | reflexivity].
Defined.

(** [tags CONTAINS 'x'], and [tags CONTAINS ('x')]. *)
Lemma applyWhere_CONTAINS_witness :
  let tags : Node Z := column_ref "tags" in
  applyWhere seed (binary_expr "CONTAINS" tags (string_value "x")) =
    Ok [[flt "tags" "array-contains" (native_string "x")]] /\
  applyWhere seed (binary_expr "CONTAINS" tags (expr_list [string_value "x"])) =
    Throw ContainsUnsupportedValue.
Proof.
  intros tags. split.
  - exact (proj1 (applyWhere_CONTAINS (U := utils) seed "tags" (string_value "x"))
             eq_refl (native_string "x") eq_refl).
  - exact (proj2 (applyWhere_CONTAINS (U := utils) seed "tags"
                    (expr_list [string_value "x"])) eq_refl).
Defined.

(** [rating IS null]. *)
Lemma applyWhere_mapped_comparison_witness :
  exists fop,
    whereFilterOp "IS" = Ok fop /\
    applyWhere seed (binary_expr "IS" col_rating null_value) =
    Ok (refineAll "rating" fop native_null seed).
Proof.
  apply (applyWhere_mapped_comparison (U := utils)); [cbn; tauto | reflexivity].
Defined.

(** [rating NOT rating] reports the value; [rating NOT 3] the operator. *)
Lemma applyWhere_error_precedence_witness :
  applyWhere seed (binary_expr "NOT" col_rating col_rating) = Throw ValueError /\
  applyWhere seed (binary_expr "NOT" col_rating (number_value 3%Z)) =
    Throw NotOperatorUnsupported.
Proof.
  assert (Hop : ~ In "NOT" rewrittenOperators).
  { cbn. intros H. repeat (destruct H as [H | H]; [discriminate H |]). exact H. }
  split.
  - exact (proj1 (applyWhere_error_precedence (U := utils) seed "NOT" "rating"
                    col_rating ValueError Hop eq_refl) eq_refl).
  - exact (proj2 (applyWhere_error_precedence (U := utils) seed "NOT" "rating"
                    (number_value 3%Z) NotOperatorUnsupported Hop eq_refl)
                 (native_number 3%Z) eq_refl eq_refl).
Defined.

(** [active], [active = true] and [active != false]. *)
Lemma applyWhere_bare_column_witness :
  let active : Node Z := column_ref "active" in
  applyWhere seed (binary_expr "=" active (bool_value true)) = applyWhere seed active /\
  applyWhere seed (binary_expr "!=" active (bool_value false)) = applyWhere seed active.
Proof.
  intros active.
  destruct (applyWhere_bare_column (U := utils) seed "active" eq_refl)
    as (H1 & _ & H3 & _).
  split; [exact H1 | exact H3].
Defined.

(** [rating != 3] on two queries, and on each of them. *)
Lemma applyWhere_queries_app_witness :
  let astWhere := binary_expr "!=" col_rating (number_value 3%Z) in
  let lt := flt "rating" "<" (native_number 3%Z) in
  let gt := flt "rating" ">" (native_number 3%Z) in
  let a := flt "a" "==" native_null in
  exists R,
    applyWhere ([[]] ++ [[a]]) astWhere = Ok R /\
    Permutation R ([[lt]; [gt]] ++ [[a; lt]; [a; gt]]).
Proof.
  intros astWhere lt gt a.
  refine (applyWhere_queries_app (U := utils) astWhere [[]] [[a]] _ _ _ _);
    reflexivity.
Defined.

(** [array-contains] is returned, for CONTAINS. *)
Lemma whereFilterOp_range_witness :
  In "array-contains" storeOperators.
Proof.
  apply (proj1 (whereFilterOp_range "array-contains")).
  exists "CONTAINS". reflexivity.
Defined.

(** The pattern [Jo%]. *)
Lemma renderLike_parseWhereLike_witness :
  renderLike (parseWhereLike "Jo%") = "Jo%".
Proof.
  refine (proj1 (renderLike_parseWhereLike "Jo%" _)). discriminate.
Defined.

(** [rating IN (1, name, 3)]: the second value does not convert. *)
Lemma applyWhere_IN_throw_witness :
  applyWhere seed
    (binary_expr "IN" col_rating
       (expr_list [number_value 1%Z; col_name; number_value 3%Z])) =
  Throw ValueError.
Proof.
  apply (proj2 (applyWhere_IN_throw (U := utils) seed "rating" _ ValueError)).
  exists [number_value 1%Z], col_name, [number_value 3%Z].
  split; [reflexivity |]. split; [| reflexivity].
  constructor; [| constructor]. exists (native_number 1%Z). reflexivity.
Defined.

(** [rating <> 3] is [rating < 3 OR rating > 3]. *)
Lemma applyWhere_notEqual_desugar_witness :
  applyWhere seed (binary_expr "!=" col_rating (number_value 3%Z)) =
  applyWhere seed
    (binary_expr "OR" (binary_expr "<" col_rating (number_value 3%Z))
                      (binary_expr ">" col_rating (number_value 3%Z))).
Proof.
  exact (proj2 (applyWhere_notEqual_desugar (U := utils) seed "rating"
                  (number_value 3%Z)) eq_refl).
Defined.
